(** * HistoryStack: undo / redo of the node editor

    A shallow embedding of [packages/tools/nodeEditor/src/historyStack.ts].

    The class keeps two arrays of compressed snapshots ([_history], most
    recent last, and [_redoStack]), a reentrancy flag [_locked] and a
    reference to the edited node material.  Its collaborators (the node
    material with its serializer, [JSON], and the [fflate] codec) live
    outside the file; they are gathered in the [Collaborators] class and every
    definition below is generic in them.  Exceptions thrown by a collaborator
    are kept together with the instance state at the moment of the throw,
    because the class has no [try]/[finally]. *)

From Stdlib Require Import Ascii String Bool Arith Lia List.
From Stdlib.Strings Require Import Byte.
Import ListNotations.

Set Implicit Arguments.

(** ** Data *)

Definition Uint8Array := list byte.

(** What a method call evaluates to.  Every method of the class is declared
    without a return value, so the only value that occurs is [JsUndefined];
    [JsBoolean] is there to be able to talk about [true] and [false]. *)
Inductive JsValue : Type :=
| JsUndefined
| JsBoolean (b : bool).

(** The four observables whose observers call [_store] (constructor, lines
    37-51). *)
Inductive ChangeChannel : Type :=
| onUpdateRequiredObservable
| onRebuildRequiredObservable
| onNodeMovedObservable
| onNewNodeCreatedObservable.

(** Exceptions a transition or a capture can raise. *)
Inductive Exn : Type :=
| DecompressError (data : Uint8Array)
| SyntaxError (text : string)
| TypeError.

(** The collaborators of the class, each at a call that returns.  The two
    calls that read a stored snapshot back, [decompressSync] on its bytes and
    [JSON.parse] on its text, fail on what is no compressed stream or no JSON
    text, and are partial here.  An exception raised inside the serializer,
    the compressor, [UpdateLocations] or the restore is not modelled: the
    class has no handler, so it would leave the method at that call. *)
Class Collaborators : Type := {
  NodeMaterial : Type;
  Json : Type;
  (** [SerializationTools.UpdateLocations(nodeMaterial, globalState)]:
      writes the editor positions into the material, in place. *)
  UpdateLocations : NodeMaterial -> NodeMaterial;
  (** [nodeMaterial.serialize()] *)
  serialize : NodeMaterial -> Json;
  JSON_stringify : Json -> string;
  (** [JSON.parse] throws a [SyntaxError] on malformed text. *)
  JSON_parse : string -> option Json;
  (** [nodeMaterial.parseSerializedObject(source)]: replaces the state of
      the material in place. *)
  parseSerializedObject : NodeMaterial -> Json -> NodeMaterial;
  (** [fflate.zlibSync(fflate.strToU8(s), { level: 9 })] *)
  zlibSync_strToU8 : string -> Uint8Array;
  (** [fflate.strFromU8(fflate.decompressSync(data))]; [decompressSync]
      throws on data that is no compressed stream. *)
  strFromU8_decompressSync : Uint8Array -> option string
}.

(** What the observers of the editor do while an undo or a redo notifies
    them: the change notifications they fire back, synchronously, on the
    channels the history stack listens to.  [duringSelectionChanged] are
    those fired under [onSelectionChangedObservable.notifyObservers(null)],
    [duringRestore] those fired by [parseSerializedObject] itself, and
    [duringResetRequired] those fired under
    [onResetRequiredObservable.notifyObservers(false)]. *)
Record Reactions : Type := mkReactions {
  duringSelectionChanged : list ChangeChannel;
  duringRestore : list ChangeChannel;
  duringResetRequired : list ChangeChannel
}.

Definition quiet : Reactions := mkReactions [] [] [].

(** ** Arrays *)

(** [Array.prototype.pop]: the last element, if any, and the rest. *)
Fixpoint Array_pop {A : Type} (l : list A) : option (list A * A) :=
  match l with
  | [] => None
  | x :: l' =>
      match Array_pop l' with
      | None => Some ([], x)
      | Some (rest, top) => Some (x :: rest, top)
      end
  end.

(** [a.push(x)] *)
Definition Array_push {A : Type} (l : list A) (x : A) : list A := l ++ [x].

(** [a.splice(0, 1)]: drops the element at index 0. *)
Definition Array_splice_0_1 {A : Type} (l : list A) : list A := tl l.

(** [a[i]] *)
Definition Array_get {A : Type} (l : list A) (i : nat) : option A := nth_error l i.

Section Model.

Context {C : Collaborators}.

(** ** The instance state *)

Record HistoryStack : Type := mkHistoryStack {
  _nodeMaterial : NodeMaterial;
  _history : list Uint8Array;
  _redoStack : list Uint8Array;
  _locked : bool
}.

Definition _maxHistoryLength : nat := 64.

(** ** A state monad that keeps the state on a throw *)

Inductive Outcome (A : Type) : Type :=
| Ret (a : A) (hs : HistoryStack)
| Throw (e : Exn) (hs : HistoryStack).

Arguments Throw {A} e hs.

Definition M (A : Type) : Type := HistoryStack -> Outcome A.

Definition ret {A : Type} (a : A) : M A := fun hs => Ret a hs.

Definition throw {A : Type} (e : Exn) : M A := fun hs => Throw e hs.

Definition bind {A B : Type} (m : M A) (k : A -> M B) : M B :=
  fun hs =>
    match m hs with
    | Ret a hs' => k a hs'
    | Throw e hs' => Throw e hs'
    end.

Definition gets {A : Type} (f : HistoryStack -> A) : M A := fun hs => Ret (f hs) hs.

Definition modify (f : HistoryStack -> HistoryStack) : M unit := fun hs => Ret tt (f hs).

(** The state an outcome leaves the instance in, returned or thrown. *)
Definition final {A : Type} (o : Outcome A) : HistoryStack :=
  match o with
  | Ret _ hs => hs
  | Throw _ hs => hs
  end.

Definition set_nodeMaterial (f : NodeMaterial -> NodeMaterial) (hs : HistoryStack) : HistoryStack :=
  mkHistoryStack (f (_nodeMaterial hs)) (_history hs) (_redoStack hs) (_locked hs).

Definition set_history (h : list Uint8Array) (hs : HistoryStack) : HistoryStack :=
  mkHistoryStack (_nodeMaterial hs) h (_redoStack hs) (_locked hs).

Definition set_redoStack (r : list Uint8Array) (hs : HistoryStack) : HistoryStack :=
  mkHistoryStack (_nodeMaterial hs) (_history hs) r (_locked hs).

Definition set_locked (b : bool) (hs : HistoryStack) : HistoryStack :=
  mkHistoryStack (_nodeMaterial hs) (_history hs) (_redoStack hs) b.

End Model.

Arguments Throw {C A} e hs.

Declare Scope hs_scope.
Delimit Scope hs_scope with hs.
Notation "x <- m ;; k" := (bind m (fun x => k))
  (at level 61, m at next level, right associativity) : hs_scope.
Notation "m ;; k" := (bind m (fun _ => k))
  (at level 61, right associativity) : hs_scope.

Section Methods.

Context {C : Collaborators}.

Local Open Scope hs_scope.

(** ** Private helpers (lines 67-75) *)

Definition _compress (dataString : string) : Uint8Array := zlibSync_strToU8 dataString.

Definition _decompress (data : Uint8Array) : M string :=
  match strFromU8_decompressSync data with
  | Some s => ret s
  | None => throw (DecompressError data)
  end.

(** [JSON.parse(text)] inside a method. *)
Definition parse (text : string) : M Json :=
  match JSON_parse text with
  | Some j => ret j
  | None => throw (SyntaxError text)
  end.

(** ** [_store] (lines 77-96) *)

Definition _store : M JsValue :=
  locked <- gets _locked ;;
  if locked : bool then ret JsUndefined
  else
    modify (set_nodeMaterial UpdateLocations) ;;
    nm <- gets _nodeMaterial ;;
    let dataString := JSON_stringify (serialize nm) in
    h <- gets _history ;;
    same <- (if 0 <? length h
             then match Array_get h (length h - 1) with
                  | Some top => s <- _decompress top ;; ret (String.eqb s dataString)
                  | None => throw TypeError
                  end
             else ret false) ;;
    if same : bool then ret JsUndefined
    else
      let compressedData := _compress dataString in
      modify (fun hs => set_history (Array_push (_history hs) compressedData) hs) ;;
      h' <- gets _history ;;
      (if _maxHistoryLength <? length h'
       then modify (set_history (Array_splice_0_1 h'))
       else ret tt) ;;
      ret JsUndefined.

(** ** [reset] (lines 61-65) *)

Definition reset : M JsValue :=
  modify (set_history []) ;;
  modify (set_redoStack []) ;;
  _store ;;
  ret JsUndefined.

(** ** The subscriptions of the constructor (lines 37-55) *)

Definition observer (c : ChangeChannel) : M JsValue :=
  match c with
  | onUpdateRequiredObservable => _store
  | onRebuildRequiredObservable => _store
  | onNodeMovedObservable => _store
  | onNewNodeCreatedObservable => _store
  end.

(** The observer of [globalState.onClearUndoStack]. *)
Definition onClearUndoStack : M JsValue := reset.

(** Change notifications arriving one after the other. *)
Fixpoint notifyObservers (cs : list ChangeChannel) : M unit :=
  match cs with
  | [] => ret tt
  | c :: cs' => observer c ;; notifyObservers cs'
  end.

(** The state right after [new HistoryStack(globalState)]. *)
Definition new_HistoryStack (nm : NodeMaterial) : HistoryStack :=
  mkHistoryStack nm [] [] false.

(** ** [undo] (lines 101-118) *)

Definition undo (r : Reactions) : M JsValue :=
  h <- gets _history ;;
  if length h <? 2 then ret JsUndefined
  else
    modify (set_locked true) ;;
    match Array_pop h with
    | None => throw TypeError
    | Some (rest, current) =>
        modify (set_history rest) ;;
        let previous := Array_get rest (length rest - 1) in
        modify (fun hs => set_redoStack (Array_push (_redoStack hs) current) hs) ;;
        notifyObservers (duringSelectionChanged r) ;;
        match previous with
        | None => throw TypeError
        | Some previous =>
            previousString <- _decompress previous ;;
            source <- parse previousString ;;
            modify (set_nodeMaterial (fun nm => parseSerializedObject nm source)) ;;
            notifyObservers (duringRestore r) ;;
            notifyObservers (duringResetRequired r) ;;
            modify (set_locked false) ;;
            ret JsUndefined
        end
    end.

(** ** [redo] (lines 123-139) *)

Definition redo (r : Reactions) : M JsValue :=
  rs <- gets _redoStack ;;
  if length rs <? 1 then ret JsUndefined
  else
    modify (set_locked true) ;;
    match Array_pop rs with
    | None => throw TypeError
    | Some (rest, current) =>
        modify (set_redoStack rest) ;;
        modify (fun hs => set_history (Array_push (_history hs) current) hs) ;;
        notifyObservers (duringSelectionChanged r) ;;
        currentString <- _decompress current ;;
        source <- parse currentString ;;
        modify (set_nodeMaterial (fun nm => parseSerializedObject nm source)) ;;
        notifyObservers (duringRestore r) ;;
        notifyObservers (duringResetRequired r) ;;
        modify (set_locked false) ;;
        ret JsUndefined
    end.

(** ** [dispose] (lines 144-152)

    The observers are removed from the observables of the global state,
    which are not part of the instance state; the arrays are emptied. *)

Definition dispose : M JsValue :=
  modify (set_history []) ;;
  modify (set_redoStack []) ;;
  ret JsUndefined.

End Methods.

(** ** Editing sessions *)

Section Sessions.

Context {C : Collaborators}.

Local Open Scope hs_scope.

(** The serialized text of the document as it stands:
    [JSON.stringify(this._nodeMaterial.serialize())]. *)
Definition documentText (hs : HistoryStack) : string :=
  JSON_stringify (serialize (_nodeMaterial hs)).

(** What the editor does to a live history stack.  [OpChange edit c] is an
    edit of the material followed by the change notification on channel [c]
    ([edit] may be the identity: a bare notification); [OpClearUndoStack]
    is a notification on [globalState.onClearUndoStack]. *)
Inductive Op : Type :=
| OpChange (edit : NodeMaterial -> NodeMaterial) (c : ChangeChannel)
| OpUndo (r : Reactions)
| OpRedo (r : Reactions)
| OpClearUndoStack
| OpDispose.

Definition run_op (op : Op) : M JsValue :=
  match op with
  | OpChange edit c => modify (set_nodeMaterial edit) ;; observer c
  | OpUndo r => undo r
  | OpRedo r => redo r
  | OpClearUndoStack => onClearUndoStack
  | OpDispose => dispose
  end.

Definition run_ops (ops : list Op) (hs : HistoryStack) : HistoryStack :=
  fold_left (fun hs op => final (run_op op hs)) ops hs.

(** The states of a session: those the constructor yields and those an
    operation leaves behind, whether it returned or threw.  Operations after
    [OpDispose] are kept, which only adds states. *)
Inductive reachable : HistoryStack -> Prop :=
| reachable_new (nm : NodeMaterial) : reachable (new_HistoryStack nm)
| reachable_step (hs : HistoryStack) (op : Op) :
    reachable hs -> reachable (final (run_op op hs)).

(** A snapshot the capture can have produced. *)
Definition captured (data : Uint8Array) : Prop :=
  exists nm : NodeMaterial, data = _compress (JSON_stringify (serialize nm)).

(** An unlocked state all of whose snapshots come from the capture. *)
Definition well_formed (hs : HistoryStack) : Prop :=
  _locked hs = false /\
  Forall captured (_history hs) /\
  Forall captured (_redoStack hs).

(** Invariant I1 of the data model, together with what it needs to be
    inductive. *)
Definition consistent (hs : HistoryStack) : Prop :=
  _locked hs = false /\
  Forall captured (_history hs) /\
  Forall captured (_redoStack hs) /\
  (forall rest top, _history hs = rest ++ [top] ->
     strFromU8_decompressSync top = Some (documentText hs)).

(** The state an undo or a redo is in from the move between the arrays up
    to the restore. *)
Definition moved (hs : HistoryStack) (h rs : list Uint8Array) : HistoryStack :=
  mkHistoryStack (_nodeMaterial hs) h rs true.

(** The restore of both transitions: decompress, parse, replace, unlock. *)
Definition restore_from (data : Uint8Array) (hs : HistoryStack) : Outcome JsValue :=
  match strFromU8_decompressSync data with
  | None => Throw (DecompressError data) hs
  | Some text =>
      match JSON_parse text with
      | None => Throw (SyntaxError text) hs
      | Some source =>
          Ret JsUndefined
              (mkHistoryStack (parseSerializedObject (_nodeMaterial hs) source)
                              (_history hs) (_redoStack hs) false)
      end
  end.

(** The bound of [_store]: the oldest snapshot goes once the array is longer
    than [_maxHistoryLength]. *)
Definition evict (h : list Uint8Array) : list Uint8Array :=
  if _maxHistoryLength <? length h then Array_splice_0_1 h else h.

(** The text [_store] compares and compresses: the serialization once the
    locations are updated. *)
Definition dataString (hs : HistoryStack) : string :=
  JSON_stringify (serialize (UpdateLocations (_nodeMaterial hs))).

(** The texts a run of edits, each followed by its notification, gives the
    capture to serialize, starting from the material [nm]. *)
Fixpoint captured_texts (edits : list ((NodeMaterial -> NodeMaterial) * ChangeChannel))
         (nm : NodeMaterial) : list string :=
  match edits with
  | [] => []
  | (edit, _) :: edits' =>
      let nm' := UpdateLocations (edit nm) in
      JSON_stringify (serialize nm') :: captured_texts edits' nm'
  end.

(** The material such a run ends with. *)
Fixpoint edited (edits : list ((NodeMaterial -> NodeMaterial) * ChangeChannel))
         (nm : NodeMaterial) : NodeMaterial :=
  match edits with
  | [] => nm
  | (edit, _) :: edits' => edited edits' (UpdateLocations (edit nm))
  end.

(** No text is followed by an equal one. *)
Fixpoint adjacent_distinct (l : list string) : Prop :=
  match l with
  | a :: l' =>
      match l' with
      | b :: _ => a <> b /\ adjacent_distinct l'
      | [] => True
      end
  | [] => True
  end.

End Sessions.

(** What the class expects of its collaborators, one contract at a time.

    The decompressor undoes the compressor. *)
Class CompressorLaw (C : Collaborators) : Prop := {
  decompress_compress :
    forall s : string, strFromU8_decompressSync (zlibSync_strToU8 s) = Some s
}.

(** [JSON.parse] reads back what [JSON.stringify] wrote for a serialized
    material. *)
Class JsonLaw (C : Collaborators) : Prop := {
  parse_stringify :
    forall nm : NodeMaterial,
      JSON_parse (JSON_stringify (serialize nm)) = Some (serialize nm)
}.

(** The restore is exact: a material restored from a serialization
    serializes to it again.  Nothing in the class sees to this, and a
    material that numbers its blocks afresh when it is restored does not have
    it (module [Fresh] below); it is assumed only where it is named. *)
Class ExactRestore (C : Collaborators) : Prop := {
  serialize_parseSerializedObject :
    forall nm nm' : NodeMaterial,
      serialize (parseSerializedObject nm (serialize nm')) = serialize nm'
}.

(** ** A small instance of the collaborators

    The material is a piece of text, its serialization is the text itself,
    [JSON.stringify] wraps it behind an opening brace, and the compressed
    form is the bytes of the text behind the byte [0x78] every zlib stream
    starts with.  Concrete runs of the class are evaluated on it. *)
Module Plain.

Definition stringify (j : string) : string := String "{"%char j.

Definition parse_text (s : string) : option string :=
  match s with
  | String c j => if Ascii.eqb c "{"%char then Some j else None
  | EmptyString => None
  end.

Definition deflate (s : string) : Uint8Array := x78 :: list_byte_of_string s.

Definition inflate (data : Uint8Array) : option string :=
  match data with
  | x78 :: rest => Some (string_of_list_byte rest)
  | _ => None
  end.

#[export] Instance collaborators : Collaborators := {|
  NodeMaterial := string;
  Json := string;
  UpdateLocations := fun nm => nm;
  serialize := fun nm => nm;
  JSON_stringify := stringify;
  JSON_parse := parse_text;
  parseSerializedObject := fun _ source => source;
  zlibSync_strToU8 := deflate;
  strFromU8_decompressSync := inflate
|}.

Definition c : ChangeChannel := onUpdateRequiredObservable.

(** The edit that replaces the text. *)
Definition type (s : string) : Op (C := collaborators) :=
  OpChange (C := collaborators) (fun _ => s) c.

(** The edit that appends a letter: every such edit gives a new text. *)
Definition append_a : Op (C := collaborators) :=
  OpChange (C := collaborators) (fun nm => String "a"%char nm) c.

(** A snapshot that is no compressed stream. *)
Definition garbage : Uint8Array := [x00].

(** States A, B, C of the scenario of the testable properties. *)
Definition session_ABC : HistoryStack (C := collaborators) :=
  run_ops [type "A"; type "B"; type "C"] (new_HistoryStack (C := collaborators) ""%string).

(** [_maxHistoryLength] distinct captures, one undo, one new capture. *)
Definition session_full : HistoryStack (C := collaborators) :=
  run_ops (repeat append_a _maxHistoryLength ++ [OpUndo quiet; type "b"])
          (new_HistoryStack (C := collaborators) ""%string).

(** The same session once the last edit is undone. *)
Definition session_undone : HistoryStack (C := collaborators) :=
  final (undo quiet session_ABC).

(** And once it is redone. *)
Definition session_redone : HistoryStack (C := collaborators) :=
  final (redo quiet session_undone).

(** A state whose snapshots to restore are no compressed streams. *)
Definition corrupted : HistoryStack (C := collaborators) :=
  mkHistoryStack (C := collaborators) "C"%string
                 [garbage; deflate (stringify "C")]
                 [deflate (stringify "D"); garbage] false.

(** What a failed undo and a failed redo leave of [corrupted]. *)
Definition after_failed_undo : HistoryStack (C := collaborators) :=
  mkHistoryStack (C := collaborators) "C"%string
                 [garbage]
                 [deflate (stringify "D"); garbage; deflate (stringify "C")] true.

Definition after_failed_redo : HistoryStack (C := collaborators) :=
  mkHistoryStack (C := collaborators) "C"%string
                 [garbage; deflate (stringify "C"); garbage]
                 [deflate (stringify "D")] true.

(** A stack right after its construction. *)
Definition fresh : HistoryStack (C := collaborators) :=
  new_HistoryStack (C := collaborators) "A"%string.

(** A stack whose only snapshot is no compressed stream. *)
Definition unreadable : HistoryStack (C := collaborators) :=
  mkHistoryStack (C := collaborators) "C"%string [garbage] [] false.

(** The session with the text replaced, before the notification. *)
Definition session_edited : HistoryStack (C := collaborators) :=
  set_nodeMaterial (fun _ => "D"%string) session_ABC.

(** [_maxHistoryLength] distinct captures, then an edit not yet notified. *)
Definition session_at_bound : HistoryStack (C := collaborators) :=
  set_nodeMaterial (fun _ => "b"%string)
    (run_ops (repeat append_a _maxHistoryLength)
             (new_HistoryStack (C := collaborators) ""%string)).

(** The session in the middle of a transition: the guard is set. *)
Definition session_locked : HistoryStack (C := collaborators) :=
  set_locked true session_undone.

End Plain.

(** ** An instance whose restore is not exact

    The material carries an identifier that its serialization writes out,
    and, as a material that rebuilds its blocks does, it takes a fresh one
    from a counter each time it is restored.  The text and the compressed
    form are those of [Plain]. *)
Module Fresh.

Record material : Type := mkMaterial {
  next_id : nat;
  block_id : nat;
  body : string
}.

Definition digit (n : nat) : ascii := ascii_of_nat (48 + n).

Definition serialize_material (m : material) : string :=
  String (digit (block_id m)) (body m).

Definition restore (m : material) (source : string) : material :=
  match source with
  | String _ b => mkMaterial (S (next_id m)) (next_id m) b
  | EmptyString => mkMaterial (S (next_id m)) (next_id m) EmptyString
  end.

Definition collaborators : Collaborators := {|
  NodeMaterial := material;
  Json := string;
  UpdateLocations := fun nm => nm;
  serialize := serialize_material;
  JSON_stringify := Plain.stringify;
  JSON_parse := Plain.parse_text;
  parseSerializedObject := restore;
  zlibSync_strToU8 := Plain.deflate;
  strFromU8_decompressSync := Plain.inflate
|}.

(** The edit that replaces the text and keeps the identifier. *)
Definition type (s : string) : Op (C := collaborators) :=
  OpChange (C := collaborators)
           (fun m : material => mkMaterial (next_id m) (block_id m) s)
           onUpdateRequiredObservable.

(** The texts A, B, C captured on a material with identifier 1. *)
Definition session_ABC : HistoryStack (C := collaborators) :=
  run_ops [type "A"; type "B"; type "C"]
          (new_HistoryStack (C := collaborators) (mkMaterial 2 1 ""%string)).

Definition session_undone : HistoryStack (C := collaborators) :=
  final (undo quiet session_ABC).

Definition session_redone : HistoryStack (C := collaborators) :=
  final (redo quiet session_undone).

End Fresh.

(** * Properties *)

Unset Implicit Arguments.

(** ** Arrays *)

Lemma Array_pop_push (A : Type) (l : list A) (x : A) :
  Array_pop (Array_push l x) = Some (l, x).
Proof.
  unfold Array_push. induction l as [|y l IH]; simpl.
  - reflexivity.
  - rewrite IH. reflexivity.
Qed.

Lemma Array_pop_Some (A : Type) (l rest : list A) (top : A) :
  Array_pop l = Some (rest, top) -> l = Array_push rest top.
Proof.
  unfold Array_push. revert rest. induction l as [|y l IH]; simpl; intros rest H.
  - discriminate.
  - destruct (Array_pop l) as [[rest' top']|] eqn:E.
    + inversion H; subst. simpl. f_equal. apply IH. reflexivity.
    + inversion H; subst. destruct l as [|z l]; [reflexivity|].
      simpl in E. destruct (Array_pop l) as [[? ?]|]; discriminate.
Qed.

Lemma Array_get_top (A : Type) (l : list A) (x : A) :
  Array_get (l ++ [x]) (length (l ++ [x]) - 1) = Some x.
Proof.
  unfold Array_get. rewrite length_app. simpl.
  replace (length l + 1 - 1) with (length l) by lia.
  rewrite nth_error_app2 by lia. rewrite Nat.sub_diag. reflexivity.
Qed.

Lemma two_on_top (A : Type) (l : list A) :
  2 <= length l -> exists rest previous current, l = rest ++ [previous; current].
Proof.
  intros H.
  destruct (Array_pop l) as [[l1 current]|] eqn:E1.
  - apply Array_pop_Some in E1. unfold Array_push in E1. subst l.
    destruct (Array_pop l1) as [[l2 previous]|] eqn:E2.
    + apply Array_pop_Some in E2. unfold Array_push in E2. subst l1.
      exists l2, previous, current. rewrite <- app_assoc. reflexivity.
    + destruct l1 as [|y l1]; [simpl in H; lia|].
      simpl in E2. destruct (Array_pop l1) as [[? ?]|]; discriminate.
  - destruct l as [|y l]; [simpl in H; lia|].
    simpl in E1. destruct (Array_pop l) as [[? ?]|]; discriminate.
Qed.

Lemma one_on_top (A : Type) (l : list A) :
  l <> [] -> exists rest current, l = rest ++ [current].
Proof.
  intros H. destruct (exists_last H) as [rest [current E]].
  exists rest, current. exact E.
Qed.

Lemma empty_or_top (A : Type) (l : list A) :
  l = [] \/ exists rest current, l = rest ++ [current].
Proof.
  destruct l as [|x l]; [left; reflexivity|].
  right. apply one_on_top. discriminate.
Qed.

Section Transitions.

Context {C : Collaborators}.

(** ** The reentrancy guard *)

Lemma observer_is_store (c : ChangeChannel) : observer c = _store.
Proof. destruct c; reflexivity. Qed.

Lemma store_locked (hs : HistoryStack) :
  _locked hs = true -> _store hs = Ret JsUndefined hs.
Proof.
  intros H. unfold _store, bind, gets. rewrite H. reflexivity.
Qed.

Lemma notifyObservers_locked (cs : list ChangeChannel) (hs : HistoryStack) :
  _locked hs = true -> notifyObservers cs hs = Ret tt hs.
Proof.
  intros H. induction cs as [|c cs IH]; simpl.
  - reflexivity.
  - unfold bind. rewrite observer_is_store, (store_locked hs H). exact IH.
Qed.

(** ** The methods as equations *)

Lemma undo_guard (hs : HistoryStack) (r : Reactions) :
  length (_history hs) < 2 -> undo r hs = Ret JsUndefined hs.
Proof.
  intros H. unfold undo, bind, gets.
  destruct (Nat.ltb_spec (length (_history hs)) 2); [reflexivity | lia].
Qed.

Lemma undo_equation (hs : HistoryStack) (r : Reactions)
      (rest : list Uint8Array) (previous current : Uint8Array) :
  _history hs = rest ++ [previous; current] ->
  undo r hs =
  restore_from previous
    (moved hs (rest ++ [previous]) (_redoStack hs ++ [current])).
Proof.
  intros H. unfold undo, bind at 1, gets. rewrite H.
  assert (L : (length (rest ++ [previous; current]) <? 2) = false).
  { apply Nat.ltb_ge. rewrite length_app. simpl. lia. }
  rewrite L.
  replace (rest ++ [previous; current]) with (Array_push (rest ++ [previous]) current)
    by (unfold Array_push; rewrite <- app_assoc; reflexivity).
  rewrite Array_pop_push, Array_get_top.
  unfold bind, modify, set_locked, set_history, set_redoStack, Array_push; simpl.
  rewrite notifyObservers_locked by reflexivity.
  unfold restore_from, moved, _decompress, parse; simpl.
  destruct (strFromU8_decompressSync previous) as [text|]; [|reflexivity].
  unfold ret. destruct (JSON_parse text) as [source|]; [|reflexivity].
  unfold set_nodeMaterial; simpl.
  rewrite notifyObservers_locked by reflexivity.
  rewrite notifyObservers_locked by reflexivity.
  reflexivity.
Qed.

Lemma redo_guard (hs : HistoryStack) (r : Reactions) :
  _redoStack hs = [] -> redo r hs = Ret JsUndefined hs.
Proof.
  intros H. unfold redo, bind, gets. rewrite H. reflexivity.
Qed.

Lemma redo_equation (hs : HistoryStack) (r : Reactions)
      (rest : list Uint8Array) (current : Uint8Array) :
  _redoStack hs = rest ++ [current] ->
  redo r hs = restore_from current (moved hs (_history hs ++ [current]) rest).
Proof.
  intros H. unfold redo, bind at 1, gets. rewrite H.
  assert (L : (length (rest ++ [current]) <? 1) = false).
  { apply Nat.ltb_ge. rewrite length_app. simpl. lia. }
  rewrite L.
  change (rest ++ [current]) with (Array_push rest current).
  rewrite Array_pop_push.
  unfold bind, modify, set_locked, set_history, set_redoStack, Array_push; simpl.
  rewrite notifyObservers_locked by reflexivity.
  unfold restore_from, moved, _decompress, parse; simpl.
  destruct (strFromU8_decompressSync current) as [text|]; [|reflexivity].
  unfold ret. destruct (JSON_parse text) as [source|]; [|reflexivity].
  unfold set_nodeMaterial; simpl.
  rewrite notifyObservers_locked by reflexivity.
  rewrite notifyObservers_locked by reflexivity.
  reflexivity.
Qed.

End Transitions.

Section Capture.

Context {C : Collaborators}.

Lemma store_empty (hs : HistoryStack) :
  _locked hs = false -> _history hs = [] ->
  _store hs =
  Ret JsUndefined
      (mkHistoryStack (UpdateLocations (_nodeMaterial hs))
                      [_compress (dataString hs)] (_redoStack hs) false).
Proof.
  intros HL HH. unfold _store, bind, gets. rewrite HL.
  unfold modify, set_nodeMaterial; simpl. rewrite HH; simpl.
  unfold set_history, ret, dataString; simpl. rewrite HL. reflexivity.
Qed.

Lemma store_top (hs : HistoryStack) (rest : list Uint8Array) (top : Uint8Array) :
  _locked hs = false -> _history hs = rest ++ [top] ->
  _store hs =
  match strFromU8_decompressSync top with
  | None =>
      Throw (DecompressError top) (set_nodeMaterial UpdateLocations hs)
  | Some s =>
      Ret JsUndefined
          (if String.eqb s (dataString hs)
           then set_nodeMaterial UpdateLocations hs
           else set_history (evict (_history hs ++ [_compress (dataString hs)]))
                            (set_nodeMaterial UpdateLocations hs))
  end.
Proof.
  intros HL HH. unfold _store, bind, gets. rewrite HL.
  unfold modify; simpl. rewrite HH.
  assert (L : (0 <? length (rest ++ [top])) = true).
  { apply Nat.ltb_lt. rewrite length_app. simpl. lia. }
  rewrite L, Array_get_top. unfold _decompress.
  destruct (strFromU8_decompressSync top) as [s|]; [|reflexivity].
  unfold ret, dataString.
  destruct (String.eqb s _) eqn:E; [reflexivity|].
  unfold set_history, evict, Array_push; simpl. rewrite HH.
  destruct (_maxHistoryLength <? _); reflexivity.
Qed.

End Capture.

Section Claims.

Context {C : Collaborators}.

(** ** What a transition leaves behind *)

Lemma restore_from_stacks (data : Uint8Array) (hs : HistoryStack) :
  _history (final (restore_from data hs)) = _history hs /\
  _redoStack (final (restore_from data hs)) = _redoStack hs.
Proof.
  unfold restore_from.
  destruct (strFromU8_decompressSync data) as [text|]; [|split; reflexivity].
  destruct (JSON_parse text); split; reflexivity.
Qed.

Lemma restore_from_Throw (data : Uint8Array) (hs hs' : HistoryStack) (e : Exn) :
  restore_from data hs = Throw e hs' ->
  hs' = hs /\ (e = DecompressError data \/ exists text, e = SyntaxError text).
Proof.
  unfold restore_from.
  destruct (strFromU8_decompressSync data) as [text|].
  - destruct (JSON_parse text); [discriminate|].
    intros H; inversion H; subst. split; [reflexivity | right; eauto].
  - intros H; inversion H; subst. split; [reflexivity | left; reflexivity].
Qed.

Lemma restore_from_Ret (data : Uint8Array) (hs hs' : HistoryStack) (v : JsValue) :
  restore_from data hs = Ret v hs' ->
  exists text source,
    strFromU8_decompressSync data = Some text /\
    JSON_parse text = Some source /\
    v = JsUndefined /\
    hs' = mkHistoryStack (parseSerializedObject (_nodeMaterial hs) source)
                         (_history hs) (_redoStack hs) false.
Proof.
  unfold restore_from.
  destruct (strFromU8_decompressSync data) as [text|]; [|discriminate].
  destruct (JSON_parse text) as [source|] eqn:P; [|discriminate].
  intros H. inversion H; subst. exists text, source.
  split; [reflexivity|]. split; [exact P|]. split; reflexivity.
Qed.

Lemma undo_moves (hs : HistoryStack) (r : Reactions)
      (rest : list Uint8Array) (current : Uint8Array) :
  _history hs = rest ++ [current] ->
  rest <> [] ->
  _history (final (undo r hs)) = rest /\
  _redoStack (final (undo r hs)) = _redoStack hs ++ [current].
Proof.
  intros E N. destruct (one_on_top _ _ N) as (rest' & previous & ->).
  rewrite <- app_assoc in E. simpl in E.
  rewrite (undo_equation hs r _ _ _ E).
  apply (restore_from_stacks previous
           (moved hs (rest' ++ [previous]) (_redoStack hs ++ [current]))).
Qed.

Lemma redo_moves (hs : HistoryStack) (r : Reactions)
      (rest : list Uint8Array) (current : Uint8Array) :
  _redoStack hs = rest ++ [current] ->
  _history (final (redo r hs)) = _history hs ++ [current] /\
  _redoStack (final (redo r hs)) = rest.
Proof.
  intros E. rewrite (redo_equation hs r _ _ E).
  apply (restore_from_stacks current (moved hs (_history hs ++ [current]) rest)).
Qed.

Lemma undo_Throw (hs hs' : HistoryStack) (r : Reactions) (e : Exn) :
  undo r hs = Throw e hs' ->
  exists rest previous current,
    _history hs = rest ++ [previous; current] /\
    hs' = moved hs (rest ++ [previous]) (_redoStack hs ++ [current]) /\
    (e = DecompressError previous \/ exists text, e = SyntaxError text).
Proof.
  intros H.
  destruct (Nat.lt_ge_cases (length (_history hs)) 2) as [L|L].
  - rewrite undo_guard in H by exact L. discriminate.
  - destruct (two_on_top _ _ L) as (rest & previous & current & E).
    rewrite (undo_equation hs r _ _ _ E) in H.
    apply restore_from_Throw in H. destruct H as [-> He].
    exists rest, previous, current. auto.
Qed.

Lemma redo_Throw (hs hs' : HistoryStack) (r : Reactions) (e : Exn) :
  redo r hs = Throw e hs' ->
  exists rest current,
    _redoStack hs = rest ++ [current] /\
    hs' = moved hs (_history hs ++ [current]) rest /\
    (e = DecompressError current \/ exists text, e = SyntaxError text).
Proof.
  intros H.
  destruct (_redoStack hs) as [|x rs] eqn:E0.
  - rewrite redo_guard in H by exact E0. discriminate.
  - assert (N : x :: rs <> []) by discriminate.
    destruct (one_on_top _ _ N) as (rest & current & E).
    rewrite E in E0.
    rewrite (redo_equation hs r _ _ E0) in H.
    apply restore_from_Throw in H. destruct H as [-> He].
    exists rest, current. rewrite <- E. auto.
Qed.

(** ** Undo *)

(** C1: in every state whose [_history] holds at least two snapshots, [undo]
    takes the last snapshot off [_history], appends that very snapshot to
    [_redoStack], and restores the material from the snapshot that is now
    last in [_history] (decompressed and parsed), not from the one it took
    off. *)
Theorem undo_moves_current_and_restores_previous
        (hs : HistoryStack) (r : Reactions) :
  2 <= length (_history hs) ->
  exists rest previous current,
    _history hs = rest ++ [previous; current] /\
    _history (final (undo r hs)) = rest ++ [previous] /\
    _redoStack (final (undo r hs)) = _redoStack hs ++ [current] /\
    undo r hs =
      restore_from previous
        (moved hs (rest ++ [previous]) (_redoStack hs ++ [current])) /\
    (forall text source,
        strFromU8_decompressSync previous = Some text ->
        JSON_parse text = Some source ->
        undo r hs =
          Ret JsUndefined
              (mkHistoryStack (parseSerializedObject (_nodeMaterial hs) source)
                              (rest ++ [previous])
                              (_redoStack hs ++ [current]) false)).
Proof.
  intros L. destruct (two_on_top _ _ L) as (rest & previous & current & E).
  exists rest, previous, current.
  pose proof (undo_equation hs r _ _ _ E) as U.
  split; [exact E|]. rewrite U.
  destruct (restore_from_stacks previous
              (moved hs (rest ++ [previous]) (_redoStack hs ++ [current])))
    as [H1 H2].
  repeat split.
  - exact H1.
  - exact H2.
  - intros text source Ht Hs. unfold restore_from. rewrite Ht, Hs. reflexivity.
Qed.

(** ** Capture *)

(** C3: when the text the capture serializes equals the decompressed last
    snapshot of [_history], [_store] returns without touching [_history]
    (nor [_redoStack], nor the guard). *)
Theorem store_same_text_keeps_history
        (hs : HistoryStack) (rest : list Uint8Array) (top : Uint8Array) :
  _history hs = rest ++ [top] ->
  strFromU8_decompressSync top = Some (dataString hs) ->
  exists hs',
    _store hs = Ret JsUndefined hs' /\
    _history hs' = _history hs /\
    length (_history hs') = length (_history hs) /\
    _redoStack hs' = _redoStack hs /\
    _locked hs' = _locked hs.
Proof.
  intros HH HT. destruct (_locked hs) eqn:HL.
  - exists hs. rewrite (store_locked hs HL). auto.
  - exists (set_nodeMaterial UpdateLocations hs).
    rewrite (store_top hs _ _ HL HH), HT, String.eqb_refl.
    simpl. auto.
Qed.

(** ** Boundary calls *)

(** C5, as the code has it: [undo] on a [_history] of fewer than two
    snapshots and [redo] on an empty [_redoStack] return at once, leaving the
    arrays, the guard and the material as they were; what they return is
    [undefined], as every call of these methods does. *)
Theorem boundary_calls_change_nothing (hs : HistoryStack) (r : Reactions) :
  (length (_history hs) < 2 -> undo r hs = Ret JsUndefined hs) /\
  (length (_redoStack hs) < 1 -> redo r hs = Ret JsUndefined hs) /\
  (forall v hs', undo r hs = Ret v hs' -> v = JsUndefined) /\
  (forall v hs', redo r hs = Ret v hs' -> v = JsUndefined).
Proof.
  split; [apply undo_guard|].
  split.
  { intros L. apply redo_guard. destruct (_redoStack hs); [reflexivity|simpl in L; lia]. }
  split.
  - intros v hs' H.
    destruct (Nat.lt_ge_cases (length (_history hs)) 2) as [L|L].
    + rewrite undo_guard in H by exact L. inversion H; reflexivity.
    + destruct (two_on_top _ _ L) as (rest & previous & current & E).
      rewrite (undo_equation hs r _ _ _ E) in H. unfold restore_from in H.
      destruct (strFromU8_decompressSync previous) as [text|]; [|discriminate].
      destruct (JSON_parse text); [|discriminate].
      inversion H; reflexivity.
  - intros v hs' H.
    destruct (_redoStack hs) as [|x rs] eqn:E0.
    + rewrite redo_guard in H by exact E0. inversion H; reflexivity.
    + assert (N : x :: rs <> []) by discriminate.
      destruct (one_on_top _ _ N) as (rest & current & E). rewrite E in E0.
      rewrite (redo_equation hs r _ _ E0) in H. unfold restore_from in H.
      destruct (strFromU8_decompressSync current) as [text|]; [|discriminate].
      destruct (JSON_parse text); [|discriminate].
      inversion H; reflexivity.
Qed.

(** ** The guard during a transition *)

Lemma undo_ignores_reactions (hs : HistoryStack) (r : Reactions) :
  undo r hs = undo quiet hs.
Proof.
  destruct (Nat.lt_ge_cases (length (_history hs)) 2) as [L|L].
  - rewrite !undo_guard by exact L. reflexivity.
  - destruct (two_on_top _ _ L) as (rest & previous & current & E).
    rewrite (undo_equation hs r _ _ _ E), (undo_equation hs quiet _ _ _ E).
    reflexivity.
Qed.

Lemma redo_ignores_reactions (hs : HistoryStack) (r : Reactions) :
  redo r hs = redo quiet hs.
Proof.
  destruct (_redoStack hs) as [|x rs] eqn:E0.
  - rewrite !redo_guard by exact E0. reflexivity.
  - assert (N : x :: rs <> []) by discriminate.
    destruct (one_on_top _ _ N) as (rest & current & E). rewrite E in E0.
    rewrite (redo_equation hs r _ _ E0), (redo_equation hs quiet _ _ E0).
    reflexivity.
Qed.

(** C6: a capture request that arrives while the guard is set returns at
    once and stores nothing; hence whatever change notifications the
    observers and the restore fire during an undo or a redo, the transition
    ends as it does when none is fired: [_history] loses exactly its last
    snapshot in an undo and gains exactly the redone one in a redo. *)
Theorem capture_during_transition_is_ignored :
  (forall (hs : HistoryStack) (c : ChangeChannel),
      _locked hs = true -> observer c hs = Ret JsUndefined hs) /\
  (forall (hs : HistoryStack) (cs : list ChangeChannel),
      _locked hs = true -> notifyObservers cs hs = Ret tt hs) /\
  (forall (hs : HistoryStack) (r : Reactions),
      undo r hs = undo quiet hs /\ redo r hs = redo quiet hs) /\
  (forall (hs : HistoryStack) (r : Reactions) rest current,
      2 <= length (_history hs) ->
      _history hs = rest ++ [current] ->
      _history (final (undo r hs)) = rest) /\
  (forall (hs : HistoryStack) (r : Reactions) rest current,
      _redoStack hs = rest ++ [current] ->
      _history (final (redo r hs)) = _history hs ++ [current]).
Proof.
  split.
  { intros hs c H. rewrite observer_is_store. apply store_locked, H. }
  split; [exact (fun hs cs H => notifyObservers_locked cs hs H)|].
  split.
  { intros hs r. split; [apply undo_ignores_reactions | apply redo_ignores_reactions]. }
  split.
  - intros hs r rest current L E.
    destruct (two_on_top _ _ L) as (rest' & previous & current' & E').
    rewrite (undo_equation hs r _ _ _ E').
    destruct (restore_from_stacks previous
                (moved hs (rest' ++ [previous]) (_redoStack hs ++ [current'])))
      as [H _].
    rewrite H. simpl.
    rewrite E' in E.
    change (rest' ++ [previous; current']) with (rest' ++ [previous] ++ [current']) in E.
    rewrite app_assoc in E. apply app_inj_tail in E. apply E.
  - intros hs r rest current E.
    rewrite (redo_equation hs r _ _ E).
    destruct (restore_from_stacks current
                (moved hs (_history hs ++ [current]) rest)) as [H _].
    rewrite H. reflexivity.
Qed.

(** ** Errors inside a transition *)

(** C7, as the code has it: when the decompression (or the parse that
    follows it) throws inside [undo] or [redo], the material is as it was,
    and the arrays are as the move left them: after a failed undo the last
    snapshot of [_history] sits on [_redoStack], after a failed redo the last
    snapshot of [_redoStack] sits on [_history]. *)
Theorem failed_transition_keeps_material_and_move
        (hs hs' : HistoryStack) (r : Reactions) (e : Exn) :
  (undo r hs = Throw e hs' ->
   _nodeMaterial hs' = _nodeMaterial hs /\
   exists rest current,
     _history hs = rest ++ [current] /\
     _history hs' = rest /\
     _redoStack hs' = _redoStack hs ++ [current]) /\
  (redo r hs = Throw e hs' ->
   _nodeMaterial hs' = _nodeMaterial hs /\
   exists rest current,
     _redoStack hs = rest ++ [current] /\
     _redoStack hs' = rest /\
     _history hs' = _history hs ++ [current]).
Proof.
  split; intros H.
  - apply undo_Throw in H. destruct H as (rest & previous & current & E & -> & _).
    split; [reflexivity|].
    exists (rest ++ [previous]), current. rewrite E, <- app_assoc. auto.
  - apply redo_Throw in H. destruct H as (rest & current & E & -> & _).
    split; [reflexivity|].
    exists rest, current. auto.
Qed.

(** C10: when the decompression or the parse fails inside [undo] or [redo]
    the call throws, what it throws is that error, the guard is still set in
    the state the caller is left with, and from then on every capture
    request returns at once, storing nothing. *)
Theorem thrown_transition_leaves_guard_set (hs : HistoryStack) (r : Reactions) :
  (forall rest previous current,
      _history hs = rest ++ [previous; current] ->
      strFromU8_decompressSync previous = None \/
      (exists text, strFromU8_decompressSync previous = Some text /\
                    JSON_parse text = None) ->
      exists e hs', undo r hs = Throw e hs') /\
  (forall rest current,
      _redoStack hs = rest ++ [current] ->
      strFromU8_decompressSync current = None \/
      (exists text, strFromU8_decompressSync current = Some text /\
                    JSON_parse text = None) ->
      exists e hs', redo r hs = Throw e hs') /\
  (forall e hs',
      undo r hs = Throw e hs' \/ redo r hs = Throw e hs' ->
      ((exists data, e = DecompressError data) \/
       (exists text, e = SyntaxError text)) /\
      _locked hs' = true /\
      (forall c, observer c hs' = Ret JsUndefined hs') /\
      (forall cs, notifyObservers cs hs' = Ret tt hs')).
Proof.
  split; [|split].
  - intros rest previous current E [D|(text & D & P)];
      rewrite (undo_equation hs r _ _ _ E); unfold restore_from; rewrite D.
    + eauto.
    + rewrite P. eauto.
  - intros rest current E [D|(text & D & P)];
      rewrite (redo_equation hs r _ _ E); unfold restore_from; rewrite D.
    + eauto.
    + rewrite P. eauto.
  - intros e hs' H.
    assert (K : _locked hs' = true /\
                ((exists data, e = DecompressError data) \/
                 (exists text, e = SyntaxError text))).
    { destruct H as [H|H].
      - apply undo_Throw in H. destruct H as (? & previous & ? & _ & -> & He).
        split; [reflexivity|].
        destruct He as [->|He]; [left; eauto | right; exact He].
      - apply redo_Throw in H. destruct H as (? & current & _ & -> & He).
        split; [reflexivity|].
        destruct He as [->|He]; [left; eauto | right; exact He]. }
    destruct K as [K1 K2].
    split; [exact K2|]. split; [exact K1|]. split.
    + intros c. rewrite observer_is_store. apply store_locked, K1.
    + intros cs. apply notifyObservers_locked, K1.
Qed.

(** ** The capture and the two arrays *)

Lemma store_cases (hs : HistoryStack) :
  final (_store hs) = hs \/
  final (_store hs) = set_nodeMaterial UpdateLocations hs \/
  (_locked hs = false /\
   final (_store hs) =
     set_history (evict (_history hs ++ [_compress (dataString hs)]))
                 (set_nodeMaterial UpdateLocations hs)).
Proof.
  destruct (_locked hs) eqn:HL.
  - left. rewrite (store_locked hs HL). reflexivity.
  - right. destruct (empty_or_top _ (_history hs)) as [HH|(rest & top & HH)].
    + right. split; [reflexivity|].
      rewrite (store_empty hs HL HH).
      unfold set_history, set_nodeMaterial, evict; simpl. rewrite HH, HL. reflexivity.
    + rewrite (store_top hs _ _ HL HH).
      destruct (strFromU8_decompressSync top) as [s|]; [|left; reflexivity].
      simpl. destruct (String.eqb s (dataString hs)); [left; reflexivity|].
      right. split; reflexivity.
Qed.

Lemma store_keeps_redoStack (hs : HistoryStack) :
  _redoStack (final (_store hs)) = _redoStack hs.
Proof.
  destruct (store_cases hs) as [H|[H|[_ H]]]; rewrite H; reflexivity.
Qed.

Lemma reset_final (hs : HistoryStack) :
  final (reset hs) =
  final (_store (mkHistoryStack (_nodeMaterial hs) [] [] (_locked hs))).
Proof.
  unfold reset, bind, modify; simpl.
  unfold set_redoStack, set_history; simpl.
  destruct (_store _); reflexivity.
Qed.

Lemma reset_locked (hs : HistoryStack) :
  _locked hs = true ->
  reset hs = Ret JsUndefined (mkHistoryStack (_nodeMaterial hs) [] [] true).
Proof.
  intros HL. unfold reset, bind, modify; simpl.
  unfold set_redoStack, set_history; simpl.
  rewrite store_locked by exact HL. rewrite HL. reflexivity.
Qed.

Lemma reset_unlocked (hs : HistoryStack) :
  _locked hs = false ->
  reset hs =
  Ret JsUndefined
      (mkHistoryStack (UpdateLocations (_nodeMaterial hs))
                      [_compress (dataString hs)] [] false).
Proof.
  intros HL. unfold reset, bind, modify; simpl.
  unfold set_redoStack, set_history; simpl.
  rewrite store_empty by (simpl; auto). reflexivity.
Qed.

Lemma undo_redoStack (hs : HistoryStack) (r : Reactions) :
  _redoStack (final (undo r hs)) = _redoStack hs \/
  exists current, _redoStack (final (undo r hs)) = _redoStack hs ++ [current].
Proof.
  destruct (Nat.lt_ge_cases (length (_history hs)) 2) as [L|L].
  - left. rewrite undo_guard by exact L. reflexivity.
  - right. destruct (two_on_top _ _ L) as (rest & previous & current & E).
    exists current. rewrite (undo_equation hs r _ _ _ E).
    apply restore_from_stacks.
Qed.

Lemma redo_redoStack (hs : HistoryStack) (r : Reactions) :
  _redoStack (final (redo r hs)) = _redoStack hs \/
  exists current, _redoStack hs = _redoStack (final (redo r hs)) ++ [current].
Proof.
  destruct (empty_or_top _ (_redoStack hs)) as [E0|(rest & current & E0)].
  - left. rewrite redo_guard by exact E0. reflexivity.
  - right. exists current. rewrite (redo_equation hs r _ _ E0).
    destruct (restore_from_stacks current
                (moved hs (_history hs ++ [current]) rest)) as [_ H].
    rewrite H. exact E0.
Qed.

(** C8: a capture leaves [_redoStack] as it was, whether it stores, finds
    the same text, evicts, is ignored or throws; an undo that makes its
    transition appends the snapshot it took off [_history] and nothing else
    makes [_redoStack] longer; a redo that makes its transition takes the
    last snapshot off and, the two calls that empty the stack for good
    ([reset] and [dispose]) apart, nothing else makes it shorter. *)
Theorem capture_leaves_redoStack_alone :
  (forall hs : HistoryStack, _redoStack (final (_store hs)) = _redoStack hs) /\
  (forall (hs : HistoryStack) edit c,
      _redoStack (final (run_op (OpChange edit c) hs)) = _redoStack hs) /\
  (forall (hs : HistoryStack) op,
      length (_redoStack hs) < length (_redoStack (final (run_op op hs))) ->
      exists r, op = OpUndo r) /\
  (forall (hs : HistoryStack) op,
      op <> OpClearUndoStack -> op <> OpDispose ->
      length (_redoStack (final (run_op op hs))) < length (_redoStack hs) ->
      exists r, op = OpRedo r) /\
  (forall (hs : HistoryStack) r,
      _redoStack (final (undo r hs)) = _redoStack hs \/
      exists rest current,
        _history hs = rest ++ [current] /\
        _redoStack (final (undo r hs)) = _redoStack hs ++ [current]) /\
  (forall (hs : HistoryStack) r,
      _redoStack (final (redo r hs)) = _redoStack hs \/
      exists current,
        _redoStack hs = _redoStack (final (redo r hs)) ++ [current]).
Proof.
  assert (K : forall (hs : HistoryStack) edit c,
             _redoStack (final (run_op (OpChange edit c) hs)) = _redoStack hs).
  { intros hs edit c. simpl. unfold bind, modify. rewrite observer_is_store.
    apply (store_keeps_redoStack (set_nodeMaterial edit hs)). }
  split; [exact store_keeps_redoStack|]. split; [exact K|]. split; [|split; [|split]].
  - intros hs [edit c|r|r| |] H.
    + rewrite K in H. lia.
    + eauto.
    + simpl in H. destruct (redo_redoStack hs r) as [E|[current E]].
      * rewrite E in H. lia.
      * rewrite E, length_app in H. lia.
    + simpl in H. unfold onClearUndoStack in H.
      rewrite reset_final, store_keeps_redoStack in H. simpl in H. lia.
    + simpl in H. lia.
  - intros hs [edit c|r|r| |] N1 N2 H; try congruence; eauto.
    + rewrite K in H. lia.
    + simpl in H. destruct (undo_redoStack hs r) as [E|[current E]].
      * rewrite E in H. lia.
      * rewrite E, length_app in H. lia.
  - intros hs r.
    destruct (Nat.lt_ge_cases (length (_history hs)) 2) as [L|L].
    + left. rewrite undo_guard by exact L. reflexivity.
    + right. destruct (two_on_top _ _ L) as (rest & previous & current & E).
      exists (rest ++ [previous]), current.
      split; [rewrite E, <- app_assoc; reflexivity|].
      rewrite (undo_equation hs r _ _ _ E).
      apply restore_from_stacks.
  - exact redo_redoStack.
Qed.

(** ** The bound on [_history] *)

Lemma evict_bound (h : list Uint8Array) (x : Uint8Array) :
  length h <= _maxHistoryLength -> length (evict (h ++ [x])) <= _maxHistoryLength.
Proof.
  intros H. unfold evict.
  destruct (Nat.ltb_spec _maxHistoryLength (length (h ++ [x]))) as [L|L].
  - unfold Array_splice_0_1. rewrite length_app in L. simpl in L.
    destruct h as [|y h]; simpl in *; [lia|]. rewrite length_app. simpl. lia.
  - exact L.
Qed.

Lemma evict_oldest (oldest : Uint8Array) (h : list Uint8Array) (x : Uint8Array) :
  length (oldest :: h) = _maxHistoryLength ->
  evict ((oldest :: h) ++ [x]) = h ++ [x].
Proof.
  intros H. unfold evict.
  destruct (Nat.ltb_spec _maxHistoryLength (length ((oldest :: h) ++ [x]))) as [L|L].
  - reflexivity.
  - rewrite length_app in L. simpl in L. simpl in H. lia.
Qed.

Lemma store_bound (hs : HistoryStack) :
  length (_history hs) <= _maxHistoryLength ->
  length (_history (final (_store hs))) <= _maxHistoryLength.
Proof.
  intros H. destruct (store_cases hs) as [E|[E|[_ E]]]; rewrite E; simpl; auto.
  apply evict_bound, H.
Qed.

Lemma store_evicts_oldest
      (hs : HistoryStack) (oldest top : Uint8Array) (h : list Uint8Array) (s : string) :
  _locked hs = false ->
  _history hs = oldest :: h ++ [top] ->
  length (_history hs) = _maxHistoryLength ->
  strFromU8_decompressSync top = Some s ->
  s <> dataString hs ->
  _history (final (_store hs)) = (h ++ [top]) ++ [_compress (dataString hs)].
Proof.
  intros HL HH Hlen HT Hneq.
  rewrite (store_top hs (oldest :: h) top HL HH), HT.
  apply String.eqb_neq in Hneq. rewrite Hneq. simpl.
  rewrite HH. rewrite HH in Hlen.
  apply (evict_oldest oldest (h ++ [top])). exact Hlen.
Qed.

Lemma undo_bound (hs : HistoryStack) (r : Reactions) :
  length (_history (final (undo r hs))) <= length (_history hs).
Proof.
  destruct (Nat.lt_ge_cases (length (_history hs)) 2) as [L|L].
  - rewrite undo_guard by exact L. auto.
  - destruct (two_on_top _ _ L) as (rest & previous & current & E).
    rewrite (undo_equation hs r _ _ _ E).
    destruct (restore_from_stacks previous
                (moved hs (rest ++ [previous]) (_redoStack hs ++ [current])))
      as [H _].
    rewrite H, E. simpl. rewrite !length_app. simpl. lia.
Qed.

(** [redo] has no such check: whenever it makes its transition, [_history]
    is one snapshot longer, whatever its length was. *)
Lemma redo_grows_history (hs : HistoryStack) (r : Reactions) :
  _redoStack hs <> [] ->
  length (_history (final (redo r hs))) = S (length (_history hs)).
Proof.
  intros N. destruct (one_on_top _ _ N) as (rest & current & E).
  rewrite (redo_equation hs r _ _ E).
  destruct (restore_from_stacks current
              (moved hs (_history hs ++ [current]) rest)) as [H _].
  rewrite H. simpl. rewrite length_app. simpl. lia.
Qed.

Lemma reset_bound (hs : HistoryStack) :
  length (_history (final (reset hs))) <= 1.
Proof.
  destruct (_locked hs) eqn:HL.
  - rewrite reset_locked by exact HL. simpl. lia.
  - rewrite reset_unlocked by exact HL. simpl. lia.
Qed.

End Claims.

Section Lawful.

Context {C : Collaborators}
        {LC : CompressorLaw C} {LJ : JsonLaw C} {LE : ExactRestore C}.

(** ** Reset *)

(** C9, as the code has it: when the guard is not set, [reset] empties both
    arrays and captures at once, so that [_history] holds exactly one
    snapshot, which decompresses to the serialized text of the material as it
    now stands, and [_redoStack] is empty. *)
Theorem reset_leaves_one_baseline (hs : HistoryStack) :
  _locked hs = false ->
  exists snapshot hs',
    reset hs = Ret JsUndefined hs' /\
    _history hs' = [snapshot] /\
    _redoStack hs' = [] /\
    strFromU8_decompressSync snapshot = Some (documentText hs').
Proof.
  intros HL. eexists. eexists.
  split; [apply reset_unlocked, HL|].
  simpl. repeat split.
  unfold _compress. rewrite decompress_compress. reflexivity.
Qed.

(** ** Sessions keep the last snapshot in step with the material *)

Lemma consistent_well_formed (hs : HistoryStack) : consistent hs -> well_formed hs.
Proof. intros (H1 & H2 & H3 & _). repeat split; assumption. Qed.

Lemma captured_decompress (data : Uint8Array) :
  captured data ->
  exists nm, data = _compress (JSON_stringify (serialize nm)) /\
             strFromU8_decompressSync data = Some (JSON_stringify (serialize nm)).
Proof.
  intros [nm ->]. exists nm. split; [reflexivity|].
  unfold _compress. apply decompress_compress.
Qed.

Lemma restore_from_captured (data : Uint8Array) (hs : HistoryStack) :
  captured data ->
  exists nm,
    strFromU8_decompressSync data = Some (JSON_stringify (serialize nm)) /\
    restore_from data hs =
      Ret JsUndefined
          (mkHistoryStack (parseSerializedObject (_nodeMaterial hs) (serialize nm))
                          (_history hs) (_redoStack hs) false).
Proof.
  intros H. destruct (captured_decompress _ H) as (nm & _ & D).
  exists nm. split; [exact D|].
  unfold restore_from. rewrite D, parse_stringify. reflexivity.
Qed.

Lemma evict_top (h : list Uint8Array) (x : Uint8Array) :
  h <> [] -> exists h', evict (h ++ [x]) = h' ++ [x].
Proof.
  intros N. unfold evict. destruct (_maxHistoryLength <? _).
  - destruct h as [|y h]; [congruence|]. exists h. reflexivity.
  - exists h. reflexivity.
Qed.

Lemma evict_Forall (P : Uint8Array -> Prop) (h : list Uint8Array) :
  Forall P h -> Forall P (evict h).
Proof.
  intros H. unfold evict. destruct (_maxHistoryLength <? _); [|exact H].
  destruct H; simpl; auto.
Qed.

Lemma store_consistent (hs : HistoryStack) :
  well_formed hs -> consistent (final (_store hs)).
Proof.
  intros (HL & HH & HR).
  destruct (empty_or_top _ (_history hs)) as [E|(rest & top & E)].
  - rewrite (store_empty hs HL E). unfold consistent; simpl.
    repeat split; auto.
    + constructor; [|constructor]. exists (UpdateLocations (_nodeMaterial hs)). reflexivity.
    + intros rest top H. symmetry in H.
      apply (app_inj_tail rest []) in H. destruct H as [_ ->].
      unfold _compress. rewrite decompress_compress. reflexivity.
  - rewrite (store_top hs _ _ HL E).
    assert (CT : captured top).
    { rewrite E in HH. apply Forall_app in HH. destruct HH as [_ HT].
      inversion HT; assumption. }
    destruct (captured_decompress _ CT) as (nm & _ & D). rewrite D. simpl.
    destruct (String.eqb_spec (JSON_stringify (serialize nm)) (dataString hs)) as [Q|Q].
    + unfold consistent; simpl. repeat split; auto.
      intros rest' top' H. rewrite E in H. apply app_inj_tail in H.
      destruct H as [_ <-]. rewrite D, Q. reflexivity.
    + unfold consistent; simpl. repeat split; auto.
      * apply evict_Forall, Forall_app. split; [exact HH|].
        constructor; [|constructor].
        exists (UpdateLocations (_nodeMaterial hs)). reflexivity.
      * intros rest' top' H.
        assert (N : _history hs <> []).
        { rewrite E. intros K. apply app_eq_nil in K. destruct K; discriminate. }
        destruct (evict_top (_history hs) (_compress (dataString hs)) N) as [h' K].
        rewrite K in H. apply app_inj_tail in H. destruct H as [_ <-].
        unfold _compress. rewrite decompress_compress. reflexivity.
Qed.

Lemma undo_consistent (hs : HistoryStack) (r : Reactions) :
  consistent hs -> consistent (final (undo r hs)).
Proof.
  intros K. destruct (Nat.lt_ge_cases (length (_history hs)) 2) as [Len|Len].
  - rewrite undo_guard by exact Len. exact K.
  - destruct K as (HL & HH & HR & _).
    destruct (two_on_top _ _ Len) as (rest & previous & current & E).
    rewrite (undo_equation hs r _ _ _ E).
    rewrite E in HH.
    change (rest ++ [previous; current]) with (rest ++ [previous] ++ [current]) in HH.
    rewrite app_assoc in HH. apply Forall_app in HH. destruct HH as [HP HC].
    assert (CP : captured previous).
    { apply Forall_app in HP. destruct HP as [_ HP]. inversion HP; assumption. }
    destruct (restore_from_captured previous
                (moved hs (rest ++ [previous]) (_redoStack hs ++ [current])) CP)
      as (nm & D & ->).
    unfold consistent; simpl. repeat split; auto.
    + apply Forall_app. split; assumption.
    + intros rest' top' H. apply app_inj_tail in H. destruct H as [_ <-].
      rewrite D. unfold documentText; simpl.
      rewrite serialize_parseSerializedObject. reflexivity.
Qed.

Lemma redo_consistent (hs : HistoryStack) (r : Reactions) :
  consistent hs -> consistent (final (redo r hs)).
Proof.
  intros K.
  destruct (empty_or_top _ (_redoStack hs)) as [E|(rest & current & E)].
  - rewrite redo_guard by exact E. exact K.
  - destruct K as (HL & HH & HR & _).
    rewrite (redo_equation hs r _ _ E).
    rewrite E in HR. apply Forall_app in HR. destruct HR as [HR HC].
    assert (CC : captured current) by (inversion HC; assumption).
    destruct (restore_from_captured current
                (moved hs (_history hs ++ [current]) rest) CC)
      as (nm & D & ->).
    unfold consistent; simpl. repeat split; auto.
    + apply Forall_app. split; assumption.
    + intros rest' top' H. apply app_inj_tail in H. destruct H as [_ <-].
      rewrite D. unfold documentText; simpl.
      rewrite serialize_parseSerializedObject. reflexivity.
Qed.

Lemma run_op_consistent (hs : HistoryStack) (op : Op) :
  consistent hs -> consistent (final (run_op op hs)).
Proof.
  intros K. destruct op as [edit c|r|r| |]; simpl.
  - unfold bind, modify. rewrite observer_is_store.
    apply store_consistent. apply consistent_well_formed in K.
    destruct K as (K1 & K2 & K3). repeat split; assumption.
  - apply undo_consistent, K.
  - apply redo_consistent, K.
  - unfold onClearUndoStack. rewrite reset_final.
    apply store_consistent. destruct K as (K1 & _).
    repeat split; simpl; auto.
  - destruct K as (K1 & _). unfold consistent; simpl. repeat split; auto.
    intros rest top H. destruct rest; discriminate.
Qed.

Lemma reachable_consistent (hs : HistoryStack) : reachable hs -> consistent hs.
Proof.
  induction 1 as [nm|hs op _ IH].
  - unfold consistent; simpl. repeat split; auto.
    intros rest top H. destruct rest; discriminate.
  - apply run_op_consistent, IH.
Qed.

(** ** Undo, then redo *)

Lemma undo_then_redo_exact (hs : HistoryStack) (r1 r2 : Reactions) :
  reachable hs ->
  2 <= length (_history hs) ->
  exists hs1 hs2,
    undo r1 hs = Ret JsUndefined hs1 /\
    redo r2 hs1 = Ret JsUndefined hs2 /\
    documentText hs2 = documentText hs /\
    _history hs2 = _history hs /\
    _redoStack hs2 = _redoStack hs /\
    _locked hs2 = _locked hs.
Proof.
  intros R Len. apply reachable_consistent in R.
  destruct R as (HL & HH & HR & I1).
  destruct (two_on_top _ _ Len) as (rest & previous & current & E).
  assert (E' : _history hs = (rest ++ [previous]) ++ [current])
    by (rewrite E, <- app_assoc; reflexivity).
  pose proof HH as HH'. rewrite E' in HH'.
  apply Forall_app in HH'. destruct HH' as [HP HC].
  assert (CP : captured previous).
  { apply Forall_app in HP. destruct HP as [_ HP]. inversion HP; assumption. }
  assert (CC : captured current) by (inversion HC; assumption).
  destruct (restore_from_captured previous
              (moved hs (rest ++ [previous]) (_redoStack hs ++ [current])) CP)
    as (nmp & _ & U).
  rewrite <- (undo_equation hs r1 _ _ _ E) in U.
  set (hs1 := mkHistoryStack
                (parseSerializedObject (_nodeMaterial hs) (serialize nmp))
                (rest ++ [previous]) (_redoStack hs ++ [current]) false).
  assert (U' : undo r1 hs = Ret JsUndefined hs1) by exact U.
  destruct (restore_from_captured current
              (moved hs1 (_history hs1 ++ [current]) (_redoStack hs)) CC)
    as (nmc & D & V).
  rewrite <- (redo_equation hs1 r2 (_redoStack hs) current eq_refl) in V.
  exists hs1. eexists. split; [exact U'|].
  split; [exact V|]. simpl.
  repeat split.
  - unfold documentText at 1; simpl. rewrite serialize_parseSerializedObject.
    specialize (I1 _ _ E'). rewrite D in I1. inversion I1. reflexivity.
  - symmetry. exact E'.
  - symmetry. exact HL.
Qed.

End Lawful.

(** * Further properties of the class *)

Section Guard.

Context {C : Collaborators}.

Lemma run_ops_cons (op : Op) (ops : list Op) (hs : HistoryStack) :
  run_ops (op :: ops) hs = run_ops ops (final (run_op op hs)).
Proof. reflexivity. Qed.

Lemma run_ops_app (ops1 ops2 : list Op) (hs : HistoryStack) :
  run_ops (ops1 ++ ops2) hs = run_ops ops2 (run_ops ops1 hs).
Proof. unfold run_ops. apply fold_left_app. Qed.

Lemma run_op_change (hs : HistoryStack) edit c :
  run_op (OpChange edit c) hs = _store (set_nodeMaterial edit hs).
Proof. simpl. unfold bind, modify. rewrite observer_is_store. reflexivity. Qed.

Lemma store_keeps_locked (hs : HistoryStack) :
  _locked (final (_store hs)) = _locked hs.
Proof.
  destruct (store_cases hs) as [H|[H|[_ H]]]; rewrite H; reflexivity.
Qed.

Lemma restore_from_locked (data : Uint8Array) (hs : HistoryStack) :
  _locked hs = true ->
  (exists hs', restore_from data hs = Ret JsUndefined hs' /\ _locked hs' = false) \/
  (exists e, restore_from data hs = Throw e hs).
Proof.
  intros HL. unfold restore_from.
  destruct (strFromU8_decompressSync data) as [text|]; [|right; eauto].
  destruct (JSON_parse text); [left|right]; eauto.
Qed.

(** X1: the guard is released by nothing but an undo or a redo that makes its
    transition and returns: a capture, a [reset] and a [dispose] leave
    [_locked] as it is, and a transition that throws leaves it set. *)
Theorem guard_released_only_by_returning_transition
        (hs : HistoryStack) (op : Op) :
  _locked hs = true ->
  _locked (final (run_op op hs)) = false ->
  exists r hs',
    (op = OpUndo r \/ op = OpRedo r) /\ run_op op hs = Ret JsUndefined hs'.
Proof.
  intros HL HU. destruct op as [edit c|r|r| |].
  - rewrite run_op_change, store_keeps_locked in HU. simpl in HU. congruence.
  - exists r. simpl in *.
    destruct (Nat.lt_ge_cases (length (_history hs)) 2) as [Len|Len].
    + rewrite undo_guard in HU by exact Len. simpl in HU. congruence.
    + destruct (two_on_top _ _ Len) as (rest & previous & current & E).
      rewrite (undo_equation hs r _ _ _ E) in *.
      destruct (restore_from_locked previous
                  (moved hs (rest ++ [previous]) (_redoStack hs ++ [current]))
                  eq_refl) as [(hs' & R & _)|(e & R)]; rewrite R in *.
      * eauto.
      * simpl in HU. discriminate.
  - exists r. simpl in *.
    destruct (empty_or_top _ (_redoStack hs)) as [E|(rest & current & E)].
    + rewrite redo_guard in HU by exact E. simpl in HU. congruence.
    + rewrite (redo_equation hs r _ _ E) in *.
      destruct (restore_from_locked current
                  (moved hs (_history hs ++ [current]) rest) eq_refl)
        as [(hs' & R & _)|(e & R)]; rewrite R in *.
      * eauto.
      * simpl in HU. discriminate.
  - simpl in HU. unfold onClearUndoStack in HU.
    rewrite reset_final, store_keeps_locked in HU. simpl in HU. congruence.
  - simpl in HU. congruence.
Qed.

Lemma inert_step (hs : HistoryStack) (op : Op) :
  _locked hs = true /\ _history hs = [] /\ _redoStack hs = [] ->
  _locked (final (run_op op hs)) = true /\
  _history (final (run_op op hs)) = [] /\
  _redoStack (final (run_op op hs)) = [].
Proof.
  intros (HL & HH & HR). destruct op as [edit c|r|r| |].
  - rewrite run_op_change, store_locked by exact HL. simpl. auto.
  - simpl. rewrite undo_guard by (rewrite HH; simpl; lia). simpl. auto.
  - simpl. rewrite redo_guard by exact HR. simpl. auto.
  - simpl. unfold onClearUndoStack. rewrite reset_locked by exact HL. simpl. auto.
  - simpl. auto.
Qed.

Lemma inert_run_ops (ops : list Op) (hs : HistoryStack) :
  _locked hs = true /\ _history hs = [] /\ _redoStack hs = [] ->
  _locked (run_ops ops hs) = true /\
  _history (run_ops ops hs) = [] /\
  _redoStack (run_ops ops hs) = [].
Proof.
  revert hs. induction ops as [|op ops IH]; intros hs H; simpl.
  - exact H.
  - apply IH, inert_step, H.
Qed.

(** X2: once an undo or a redo has thrown, a [reset] leaves a stack that
    stays empty for good: whatever edits, notifications, undos, redos, resets
    follow, the guard stays set and both arrays stay empty, so nothing is
    captured any more. *)
Theorem reset_after_thrown_transition_is_inert
        (hs hs' : HistoryStack) (r : Reactions) (e : Exn) (ops : list Op) :
  undo r hs = Throw e hs' \/ redo r hs = Throw e hs' ->
  _locked (run_ops (OpClearUndoStack :: ops) hs') = true /\
  _history (run_ops (OpClearUndoStack :: ops) hs') = [] /\
  _redoStack (run_ops (OpClearUndoStack :: ops) hs') = [].
Proof.
  intros H.
  assert (HL : _locked hs' = true).
  { destruct H as [H|H].
    - apply undo_Throw in H. destruct H as (? & ? & ? & _ & -> & _). reflexivity.
    - apply redo_Throw in H. destruct H as (? & ? & _ & -> & _). reflexivity. }
  simpl. apply inert_run_ops. unfold onClearUndoStack.
  rewrite reset_locked by exact HL. simpl. auto.
Qed.

(** ** Errors of the capture *)

(** X4: with the guard clear, a capture whose last snapshot is no compressed
    stream throws the decompression error; the arrays and the guard are as
    they were, and the material has its locations updated. *)
Theorem store_throws_on_unreadable_top
        (hs : HistoryStack) (rest : list Uint8Array) (top : Uint8Array) :
  _locked hs = false ->
  _history hs = rest ++ [top] ->
  strFromU8_decompressSync top = None ->
  _store hs = Throw (DecompressError top) (set_nodeMaterial UpdateLocations hs).
Proof.
  intros HL HH D. rewrite (store_top hs _ _ HL HH), D. reflexivity.
Qed.

(** ** What a capture stores *)

Lemma store_appends (hs : HistoryStack) :
  _locked hs = false ->
  length (_history hs) < _maxHistoryLength ->
  (_history hs = [] \/
   exists rest top s,
     _history hs = rest ++ [top] /\
     strFromU8_decompressSync top = Some s /\ s <> dataString hs) ->
  _store hs =
  Ret JsUndefined
      (set_history (_history hs ++ [_compress (dataString hs)])
                   (set_nodeMaterial UpdateLocations hs)).
Proof.
  intros HL Len [HH|(rest & top & s & HH & D & N)].
  - rewrite (store_empty hs HL HH).
    unfold set_history, set_nodeMaterial; simpl. rewrite HH, HL. reflexivity.
  - rewrite (store_top hs _ _ HL HH), D.
    apply String.eqb_neq in N. rewrite N.
    unfold evict.
    destruct (Nat.ltb_spec _maxHistoryLength
                (length (_history hs ++ [_compress (dataString hs)]))) as [K|K].
    + rewrite length_app in K. simpl in K. lia.
    + reflexivity.
Qed.

(** X5: with the guard clear and fewer than [_maxHistoryLength] snapshots, a
    capture of a text other than that of the last snapshot (or the first
    capture) appends exactly one snapshot, the compressed text, and drops
    none. *)
Theorem store_appends_new_text (hs : HistoryStack) :
  _locked hs = false ->
  length (_history hs) < _maxHistoryLength ->
  (_history hs = [] \/
   exists rest top s,
     _history hs = rest ++ [top] /\
     strFromU8_decompressSync top = Some s /\ s <> dataString hs) ->
  _store hs =
  Ret JsUndefined
      (set_history (_history hs ++ [_compress (dataString hs)])
                   (set_nodeMaterial UpdateLocations hs)).
Proof. exact (store_appends hs). Qed.

(** X6: with the guard clear and exactly [_maxHistoryLength] snapshots, a
    capture of a text other than that of the last snapshot drops the snapshot
    at index 0, keeps the others in order and appends the new one, so the
    length stays [_maxHistoryLength]. *)
Theorem store_at_bound_drops_oldest
        (hs : HistoryStack) (oldest top : Uint8Array)
        (h : list Uint8Array) (s : string) :
  _locked hs = false ->
  _history hs = oldest :: h ++ [top] ->
  length (_history hs) = _maxHistoryLength ->
  strFromU8_decompressSync top = Some s ->
  s <> dataString hs ->
  _history (final (_store hs)) = (h ++ [top]) ++ [_compress (dataString hs)] /\
  length (_history (final (_store hs))) = _maxHistoryLength.
Proof.
  intros HL HH Len D N.
  pose proof (store_evicts_oldest hs oldest top h s HL HH Len D N) as K.
  split; [exact K|]. rewrite K. rewrite HH in Len. simpl in Len.
  rewrite length_app. simpl. lia.
Qed.

(** X7: every operation but [redo] keeps [_history] within
    [_maxHistoryLength] when it was; a redo that makes its transition makes
    [_history] exactly one snapshot longer, whatever its length. *)
Theorem history_bound_kept_except_by_redo (hs : HistoryStack) (op : Op) :
  (length (_history hs) <= _maxHistoryLength ->
   (forall r, op <> OpRedo r) ->
   length (_history (final (run_op op hs))) <= _maxHistoryLength) /\
  (forall r, op = OpRedo r -> _redoStack hs <> [] ->
   length (_history (final (run_op op hs))) = S (length (_history hs))).
Proof.
  split.
  - intros Len N. destruct op as [edit c|r|r| |].
    + rewrite run_op_change. apply (store_bound (set_nodeMaterial edit hs)), Len.
    + simpl. pose proof (undo_bound hs r). lia.
    + exfalso. apply (N r). reflexivity.
    + simpl. pose proof (reset_bound hs). unfold onClearUndoStack, _maxHistoryLength in *. lia.
    + simpl. lia.
  - intros r -> N. simpl. apply redo_grows_history, N.
Qed.

(** ** Snapshots are moved, never copied or lost *)

Lemma undo_conserves (hs : HistoryStack) (r : Reactions) :
  _history (final (undo r hs)) ++ rev (_redoStack (final (undo r hs))) =
  _history hs ++ rev (_redoStack hs).
Proof.
  destruct (Nat.lt_ge_cases (length (_history hs)) 2) as [Len|Len].
  - rewrite undo_guard by exact Len. reflexivity.
  - destruct (two_on_top _ _ Len) as (rest & previous & current & E).
    rewrite (undo_equation hs r _ _ _ E).
    destruct (restore_from_stacks previous
                (moved hs (rest ++ [previous]) (_redoStack hs ++ [current])))
      as [H1 H2].
    rewrite H1, H2, E. simpl. rewrite rev_app_distr. simpl.
    rewrite <- !app_assoc. reflexivity.
Qed.

Lemma redo_conserves (hs : HistoryStack) (r : Reactions) :
  _history (final (redo r hs)) ++ rev (_redoStack (final (redo r hs))) =
  _history hs ++ rev (_redoStack hs).
Proof.
  destruct (empty_or_top _ (_redoStack hs)) as [E|(rest & current & E)].
  - rewrite redo_guard by exact E. reflexivity.
  - rewrite (redo_equation hs r _ _ E).
    destruct (restore_from_stacks current
                (moved hs (_history hs ++ [current]) rest)) as [H1 H2].
    rewrite H1, H2, E. simpl. rewrite rev_app_distr. simpl.
    rewrite <- !app_assoc. reflexivity.
Qed.

(** X8: an undo and a redo, returned or thrown, neither create nor lose nor
    duplicate a snapshot: [_history] followed by [_redoStack] read backwards
    is the same sequence before and after. *)
Theorem transitions_conserve_snapshots (hs : HistoryStack) (r : Reactions) :
  _history (final (undo r hs)) ++ rev (_redoStack (final (undo r hs))) =
    _history hs ++ rev (_redoStack hs) /\
  _history (final (redo r hs)) ++ rev (_redoStack (final (redo r hs))) =
    _history hs ++ rev (_redoStack hs).
Proof. split; [apply undo_conserves | apply redo_conserves]. Qed.

Lemma hd_error_firstn (A : Type) (n : nat) (l : list A) :
  0 < n -> hd_error (firstn n l) = hd_error l.
Proof.
  intros H. destruct n as [|n]; [lia|]. destruct l; reflexivity.
Qed.

Lemma undo_history (hs : HistoryStack) (r : Reactions) :
  _history (final (undo r hs)) =
  firstn (Nat.max 1 (length (_history hs) - 1)) (_history hs).
Proof.
  destruct (Nat.lt_ge_cases (length (_history hs)) 2) as [Len|Len].
  - rewrite undo_guard by exact Len. cbn [final].
    symmetry. apply firstn_all2. lia.
  - destruct (two_on_top _ _ Len) as (rest & previous & current & E).
    rewrite (undo_equation hs r _ _ _ E).
    destruct (restore_from_stacks previous
                (moved hs (rest ++ [previous]) (_redoStack hs ++ [current])))
      as [H1 _].
    rewrite H1, E. cbn [moved _history].
    change (rest ++ [previous; current]) with (rest ++ [previous] ++ [current]).
    rewrite app_assoc.
    assert (Q : Nat.max 1 (length ((rest ++ [previous]) ++ [current]) - 1)
                = length (rest ++ [previous])).
    { rewrite !length_app. cbn [length]. lia. }
    rewrite Q, firstn_app, Nat.sub_diag, firstn_all. cbn [firstn].
    rewrite app_nil_r. reflexivity.
Qed.

Lemma undos_history (k : nat) (r : Reactions) :
  forall hs : HistoryStack,
    _history (run_ops (repeat (OpUndo r) k) hs) =
      firstn (Nat.max 1 (length (_history hs) - k)) (_history hs) /\
    _history (run_ops (repeat (OpUndo r) k) hs)
      ++ rev (_redoStack (run_ops (repeat (OpUndo r) k) hs)) =
      _history hs ++ rev (_redoStack hs).
Proof.
  induction k as [|k IH]; intros hs.
  - cbn [repeat]. change (run_ops [] hs) with hs.
    split; [|reflexivity]. symmetry. apply firstn_all2. lia.
  - cbn [repeat]. rewrite run_ops_cons.
    change (run_op (OpUndo r) hs) with (undo r hs).
    destruct (IH (final (undo r hs))) as [H1 H2].
    split; [|rewrite H2; apply undo_conserves].
    rewrite H1, (undo_history hs r), firstn_firstn.
    rewrite length_firstn. f_equal. lia.
Qed.

(** X16: [k] undos in a row, each returned or thrown, keep the first
    [max 1 (n - k)] of the [n] snapshots of [_history] and put the others on
    top of [_redoStack], the last one undone on top: the oldest snapshot is
    never taken off, however many undos are called. *)
Theorem undos_keep_the_oldest_snapshot
        (hs : HistoryStack) (k : nat) (r : Reactions) :
  _history (run_ops (repeat (OpUndo r) k) hs) =
    firstn (Nat.max 1 (length (_history hs) - k)) (_history hs) /\
  _redoStack (run_ops (repeat (OpUndo r) k) hs) =
    _redoStack hs
      ++ rev (skipn (Nat.max 1 (length (_history hs) - k)) (_history hs)) /\
  hd_error (_history (run_ops (repeat (OpUndo r) k) hs)) = hd_error (_history hs).
Proof.
  destruct (undos_history k r hs) as [H1 H2].
  split; [exact H1|]. split.
  - rewrite H1 in H2.
    assert (Q : _history hs ++ rev (_redoStack hs) =
                firstn (Nat.max 1 (length (_history hs) - k)) (_history hs)
                  ++ (skipn (Nat.max 1 (length (_history hs) - k)) (_history hs)
                        ++ rev (_redoStack hs)))
      by (rewrite app_assoc, firstn_skipn; reflexivity).
    rewrite Q in H2. apply app_inv_head in H2.
    rewrite <- (rev_involutive (_redoStack (run_ops (repeat (OpUndo r) k) hs))).
    rewrite H2, rev_app_distr, rev_involutive. reflexivity.
  - rewrite H1. apply hd_error_firstn. lia.
Qed.

(** ** After [dispose] *)

(** X9: [dispose] empties both arrays and leaves the material and the guard;
    on the disposed stack [undo], [redo] and a second [dispose] return
    without any effect. *)
Theorem disposed_stack_is_idle (hs : HistoryStack) (r : Reactions) :
  exists d,
    dispose hs = Ret JsUndefined d /\
    d = mkHistoryStack (_nodeMaterial hs) [] [] (_locked hs) /\
    undo r d = Ret JsUndefined d /\
    redo r d = Ret JsUndefined d /\
    dispose d = Ret JsUndefined d.
Proof.
  eexists. split; [reflexivity|]. split; [reflexivity|].
  split; [apply undo_guard; simpl; lia|].
  split; [apply redo_guard; reflexivity | reflexivity].
Qed.

End Guard.

Section History.

Context {C : Collaborators}.

Lemma redo_needs_history_step (hs : HistoryStack) (op : Op) :
  (_redoStack hs <> [] -> _history hs <> []) ->
  _redoStack (final (run_op op hs)) <> [] ->
  _history (final (run_op op hs)) <> [].
Proof.
  intros I N. destruct op as [edit c|r|r| |].
  - rewrite run_op_change in *. rewrite store_keeps_redoStack in N.
    specialize (I N).
    destruct (store_cases (set_nodeMaterial edit hs)) as [H|[H|[_ H]]];
      rewrite H; simpl; try exact I.
    destruct (evict_top (_history hs) (_compress (dataString (set_nodeMaterial edit hs))) I)
      as [h' K].
    rewrite K. intros Q. apply app_eq_nil in Q. destruct Q; discriminate.
  - simpl in *. destruct (Nat.lt_ge_cases (length (_history hs)) 2) as [Len|Len].
    + rewrite undo_guard in * by exact Len. simpl in *. auto.
    + destruct (two_on_top _ _ Len) as (rest & previous & current & E).
      rewrite (undo_equation hs r _ _ _ E).
      destruct (restore_from_stacks previous
                  (moved hs (rest ++ [previous]) (_redoStack hs ++ [current])))
        as [H _].
      rewrite H. simpl. intros Q. apply app_eq_nil in Q. destruct Q; discriminate.
  - simpl in *. destruct (empty_or_top _ (_redoStack hs)) as [E|(rest & current & E)].
    + rewrite redo_guard in * by exact E. simpl in *. auto.
    + rewrite (redo_equation hs r _ _ E).
      destruct (restore_from_stacks current
                  (moved hs (_history hs ++ [current]) rest)) as [H _].
      rewrite H. simpl. intros Q. apply app_eq_nil in Q. destruct Q; discriminate.
  - simpl in N. unfold onClearUndoStack in N.
    rewrite reset_final, store_keeps_redoStack in N. simpl in N. congruence.
  - simpl in N. congruence.
Qed.

Lemma reachable_redo_needs_history (hs : HistoryStack) :
  reachable hs -> _redoStack hs <> [] -> _history hs <> [].
Proof.
  induction 1 as [nm|hs op _ IH].
  - simpl. congruence.
  - apply redo_needs_history_step, IH.
Qed.

End History.

Section LawfulSessions.

Context {C : Collaborators}
        {LC : CompressorLaw C} {LJ : JsonLaw C} {LE : ExactRestore C}.

(** ** Sessions *)

(** X10: in every state of a session the guard is clear, the last snapshot
    of [_history], if there is one, decompresses to the serialized text of
    the material as it stands, and every snapshot of both arrays decompresses
    and parses. *)
Theorem session_last_snapshot_is_current (hs : HistoryStack) :
  reachable hs ->
  _locked hs = false /\
  (forall rest top, _history hs = rest ++ [top] ->
     strFromU8_decompressSync top = Some (documentText hs)) /\
  (forall data, In data (_history hs ++ _redoStack hs) ->
     exists text source,
       strFromU8_decompressSync data = Some text /\ JSON_parse text = Some source).
Proof.
  intros R. destruct (reachable_consistent hs R) as (HL & HH & HR & I1).
  split; [exact HL|]. split; [exact I1|].
  intros data HI.
  assert (CD : captured data).
  { apply in_app_or in HI. destruct HI as [HI|HI].
    - exact (proj1 (Forall_forall _ _) HH data HI).
    - exact (proj1 (Forall_forall _ _) HR data HI). }
  destruct (captured_decompress _ CD) as (nm & _ & D).
  exists (JSON_stringify (serialize nm)), (serialize nm).
  split; [exact D | apply parse_stringify].
Qed.

(** ** Redo, then undo *)

Lemma redo_then_undo_consistent
      (hs : HistoryStack) (r1 r2 : Reactions)
      (h rest : list Uint8Array) (top current : Uint8Array) :
  consistent hs ->
  _history hs = h ++ [top] ->
  _redoStack hs = rest ++ [current] ->
  exists hs1 hs2,
    redo r1 hs = Ret JsUndefined hs1 /\
    undo r2 hs1 = Ret JsUndefined hs2 /\
    documentText hs2 = documentText hs /\
    _history hs2 = _history hs /\
    _redoStack hs2 = _redoStack hs /\
    _locked hs2 = _locked hs.
Proof.
  intros (HL & HH & HR & I1) EH ER.
  assert (CT : captured top).
  { rewrite EH in HH. apply Forall_app in HH. destruct HH as [_ HT].
    inversion HT; assumption. }
  assert (CC : captured current).
  { rewrite ER in HR. apply Forall_app in HR. destruct HR as [_ HC].
    inversion HC; assumption. }
  destruct (restore_from_captured current
              (moved hs (_history hs ++ [current]) rest) CC) as (nmc & _ & V).
  rewrite <- (redo_equation hs r1 _ _ ER) in V.
  set (hs1 := mkHistoryStack
                (parseSerializedObject (_nodeMaterial hs) (serialize nmc))
                (_history hs ++ [current]) rest false).
  assert (V' : redo r1 hs = Ret JsUndefined hs1) by exact V.
  assert (E1 : _history hs1 = h ++ [top; current]).
  { simpl. rewrite EH, <- app_assoc. reflexivity. }
  destruct (restore_from_captured top
              (moved hs1 (h ++ [top]) (_redoStack hs1 ++ [current])) CT)
    as (nmt & D & U).
  rewrite <- (undo_equation hs1 r2 _ _ _ E1) in U.
  exists hs1. eexists. split; [exact V'|]. split; [exact U|].
  simpl. repeat split.
  - unfold documentText at 1; simpl. rewrite serialize_parseSerializedObject.
    specialize (I1 _ _ EH). rewrite D in I1. inversion I1. reflexivity.
  - symmetry. exact EH.
  - symmetry. exact ER.
  - symmetry. exact HL.
Qed.

(** ** Several undos, then as many redos *)

Lemma undos_then_redos_consistent (k : nat) (r1 r2 : Reactions) :
  forall hs : HistoryStack,
    consistent hs ->
    k < length (_history hs) ->
    documentText (run_ops (repeat (OpUndo r1) k ++ repeat (OpRedo r2) k) hs)
      = documentText hs /\
    _history (run_ops (repeat (OpUndo r1) k ++ repeat (OpRedo r2) k) hs)
      = _history hs /\
    _redoStack (run_ops (repeat (OpUndo r1) k ++ repeat (OpRedo r2) k) hs)
      = _redoStack hs.
Proof.
  induction k as [|k IH]; intros hs K Len.
  - simpl. auto.
  - assert (Len2 : 2 <= length (_history hs)) by lia.
    destruct (two_on_top _ _ Len2) as (rest & previous & current & E).
    assert (E' : _history hs = (rest ++ [previous]) ++ [current])
      by (rewrite E, <- app_assoc; reflexivity).
    pose proof (undo_consistent hs r1 K) as K1.
    assert (S1 : _history (final (undo r1 hs)) = rest ++ [previous] /\
                 _redoStack (final (undo r1 hs)) = _redoStack hs ++ [current]).
    { rewrite (undo_equation hs r1 _ _ _ E).
      apply (restore_from_stacks previous
               (moved hs (rest ++ [previous]) (_redoStack hs ++ [current]))). }
    destruct S1 as [SH SR].
    assert (Len1 : k < length (_history (final (undo r1 hs)))).
    { rewrite SH. rewrite E' in Len. rewrite length_app in Len. simpl in Len. lia. }
    destruct (IH _ K1 Len1) as (_ & JH & JR).
    replace (repeat (OpUndo r1) (S k) ++ repeat (OpRedo r2) (S k))
      with ([OpUndo r1] ++ (repeat (OpUndo r1) k ++ repeat (OpRedo r2) k)
                        ++ [OpRedo r2]).
    2:{ simpl. f_equal. rewrite <- app_assoc. f_equal.
        symmetry. apply (repeat_cons k (OpRedo r2)). }
    rewrite (run_ops_app [OpUndo r1]).
    rewrite (run_ops_app (repeat (OpUndo r1) k ++ repeat (OpRedo r2) k) [OpRedo r2]).
    change (run_ops [OpUndo r1] hs) with (final (undo r1 hs)).
    set (mid := run_ops (repeat (OpUndo r1) k ++ repeat (OpRedo r2) k)
                        (final (undo r1 hs))) in *.
    change (run_ops [OpRedo r2] mid) with (final (redo r2 mid)).
    rewrite SR in JR. rewrite SH in JH.
    rewrite (redo_equation mid r2 _ _ JR).
    destruct K as (HL & HH & HR & I1).
    assert (CC : captured current).
    { rewrite E' in HH. apply Forall_app in HH. destruct HH as [_ HC].
      inversion HC; assumption. }
    destruct (restore_from_captured current
                (moved mid (_history mid ++ [current]) (_redoStack hs)) CC)
      as (nmc & D & ->).
    simpl. repeat split.
    + unfold documentText at 1; simpl. rewrite serialize_parseSerializedObject.
      specialize (I1 _ _ E'). rewrite D in I1. inversion I1. reflexivity.
    + rewrite JH. symmetry. exact E'.
Qed.

End LawfulSessions.

Section Captures.

Context {C : Collaborators}
        {LC : CompressorLaw C} {LJ : JsonLaw C} {LE : ExactRestore C}.

Lemma adjacent_distinct_middle (l1 l2 : list string) (a b : string) :
  adjacent_distinct (l1 ++ a :: b :: l2) -> a <> b.
Proof.
  induction l1 as [|x l1 IH]; simpl.
  - intros [H _]. exact H.
  - destruct (l1 ++ a :: b :: l2) eqn:E.
    + destruct l1; discriminate.
    + intros [_ H]. apply IH, H.
Qed.

Lemma captures_append (edits : list ((NodeMaterial -> NodeMaterial) * ChangeChannel)) :
  forall (hs : HistoryStack) (ts : list string),
    _locked hs = false ->
    _history hs = map _compress ts ->
    length ts + length edits <= _maxHistoryLength ->
    adjacent_distinct (ts ++ captured_texts edits (_nodeMaterial hs)) ->
    run_ops (map (fun ec => OpChange (fst ec) (snd ec)) edits) hs =
    mkHistoryStack (edited edits (_nodeMaterial hs))
                   (map _compress (ts ++ captured_texts edits (_nodeMaterial hs)))
                   (_redoStack hs) false.
Proof.
  induction edits as [|[edit c] edits IH]; intros hs ts HL HH Len AD.
  - simpl. rewrite app_nil_r, <- HH, <- HL. destruct hs; reflexivity.
  - cbn [map fst snd]. rewrite run_ops_cons, run_op_change.
    set (hs0 := set_nodeMaterial edit hs).
    set (t := JSON_stringify (serialize (UpdateLocations (edit (_nodeMaterial hs))))).
    assert (S0 : _store hs0 =
                 Ret JsUndefined
                     (set_history (_history hs0 ++ [_compress (dataString hs0)])
                                  (set_nodeMaterial UpdateLocations hs0))).
    { apply store_appends.
      - exact HL.
      - simpl. rewrite HH, length_map. simpl in Len. lia.
      - simpl. destruct (empty_or_top _ ts) as [->|(ts' & t0 & ->)].
        + left. exact HH.
        + right. exists (map _compress ts'), (_compress t0), t0.
          split; [rewrite HH, map_app; reflexivity|].
          split; [unfold _compress; apply decompress_compress|].
          simpl in AD. rewrite <- app_assoc in AD. simpl in AD.
          apply (adjacent_distinct_middle ts' _ t0 _ AD). }
    rewrite S0. cbn [final].
    rewrite (IH _ (ts ++ [t])).
    + simpl. rewrite <- !app_assoc. reflexivity.
    + exact HL.
    + simpl. rewrite HH, map_app. reflexivity.
    + rewrite length_app. simpl in *. lia.
    + simpl. rewrite <- app_assoc. exact AD.
Qed.

(** X14: on a fresh stack, a run of at most [_maxHistoryLength] edits, each
    followed by its notification and none serializing to the text of the one
    before, leaves in [_history] exactly the compressed texts of the run, in
    order, one per edit; the last one decompresses to the text of the
    material, and [_redoStack] is empty. *)
Theorem distinct_captures_fill_history
        (edits : list ((NodeMaterial -> NodeMaterial) * ChangeChannel))
        (nm : NodeMaterial) :
  length edits <= _maxHistoryLength ->
  adjacent_distinct (captured_texts edits nm) ->
  run_ops (map (fun ec => OpChange (fst ec) (snd ec)) edits) (new_HistoryStack nm) =
    mkHistoryStack (edited edits nm) (map _compress (captured_texts edits nm)) [] false /\
  length (_history (run_ops (map (fun ec => OpChange (fst ec) (snd ec)) edits)
                            (new_HistoryStack nm))) = length edits /\
  Forall (fun d => exists t, strFromU8_decompressSync d = Some t)
         (_history (run_ops (map (fun ec => OpChange (fst ec) (snd ec)) edits)
                            (new_HistoryStack nm))).
Proof.
  intros Len AD.
  pose proof (captures_append edits (new_HistoryStack nm) [] eq_refl eq_refl Len AD) as K.
  simpl in K. rewrite K. simpl. split; [reflexivity|]. split.
  - rewrite length_map. clear. revert nm.
    induction edits as [|[edit c] edits IH]; intros nm; simpl; auto.
  - apply Forall_forall. intros d HI. apply in_map_iff in HI.
    destruct HI as (t & <- & _). exists t. unfold _compress. apply decompress_compress.
Qed.

End Captures.

(** * Round trips

    The arrays come back whatever the collaborators do; the text of the
    material comes back when the restore is exact. *)

Section RoundTrips.

Context {C : Collaborators}.

(** C2, as the code has it: in every state in which [undo] makes its
    transition, the redo called right after it brings [_history] and
    [_redoStack] back to what they were before the undo, and, when both
    calls return, restores the material from the snapshot that was last in
    [_history] before the undo.  In a session whose collaborators keep their
    contracts and restore exactly, both calls return and the serialized text
    of the material is again the one before the undo. *)
Theorem undo_then_redo_round_trip (hs : HistoryStack) (r1 r2 : Reactions) :
  2 <= length (_history hs) ->
  (_history (final (redo r2 (final (undo r1 hs)))) = _history hs /\
   _redoStack (final (redo r2 (final (undo r1 hs)))) = _redoStack hs) /\
  (forall hs1 hs2,
      undo r1 hs = Ret JsUndefined hs1 ->
      redo r2 hs1 = Ret JsUndefined hs2 ->
      exists rest current text source,
        _history hs = rest ++ [current] /\
        strFromU8_decompressSync current = Some text /\
        JSON_parse text = Some source /\
        _nodeMaterial hs2 = parseSerializedObject (_nodeMaterial hs1) source /\
        _locked hs2 = false) /\
  (CompressorLaw C -> JsonLaw C -> ExactRestore C ->
   reachable hs ->
   exists hs1 hs2,
     undo r1 hs = Ret JsUndefined hs1 /\
     redo r2 hs1 = Ret JsUndefined hs2 /\
     documentText hs2 = documentText hs /\
     _history hs2 = _history hs /\
     _redoStack hs2 = _redoStack hs /\
     _locked hs2 = _locked hs).
Proof.
  intros Len. destruct (two_on_top _ _ Len) as (rest & previous & current & E).
  assert (E' : _history hs = (rest ++ [previous]) ++ [current])
    by (rewrite E, <- app_assoc; reflexivity).
  assert (N : rest ++ [previous] <> []).
  { intros Q. apply app_eq_nil in Q. destruct Q; discriminate. }
  destruct (undo_moves hs r1 _ _ E' N) as [UH UR].
  split; [|split].
  - destruct (redo_moves (final (undo r1 hs)) r2 _ _ UR) as [RH RR].
    rewrite RH, RR, UH. split; [symmetry; exact E' | reflexivity].
  - intros hs1 hs2 U R.
    rewrite U in UH, UR. simpl in UH, UR.
    rewrite (redo_equation hs1 r2 _ _ UR) in R.
    apply restore_from_Ret in R.
    destruct R as (text & source & D & P & _ & ->).
    exists (rest ++ [previous]), current, text, source. simpl. auto.
  - intros LC LJ LE R. exact (undo_then_redo_exact hs r1 r2 R Len).
Qed.

(** X12: in every state with a snapshot in each array, [redo] followed at
    once by [undo] brings [_history] and [_redoStack] back to what they were
    before the redo, whether the calls return or throw; in a session a
    snapshot to redo always comes with a snapshot in [_history]; and in a
    session whose collaborators keep their contracts and restore exactly,
    both calls return and the serialized text of the material is again the
    one before the redo. *)
Theorem redo_then_undo_round_trip (hs : HistoryStack) (r1 r2 : Reactions) :
  _redoStack hs <> [] ->
  (_history hs <> [] ->
   _history (final (undo r2 (final (redo r1 hs)))) = _history hs /\
   _redoStack (final (undo r2 (final (redo r1 hs)))) = _redoStack hs) /\
  (reachable hs -> _history hs <> []) /\
  (CompressorLaw C -> JsonLaw C -> ExactRestore C ->
   reachable hs ->
   exists hs1 hs2,
     redo r1 hs = Ret JsUndefined hs1 /\
     undo r2 hs1 = Ret JsUndefined hs2 /\
     documentText hs2 = documentText hs /\
     _history hs2 = _history hs /\
     _redoStack hs2 = _redoStack hs /\
     _locked hs2 = _locked hs).
Proof.
  intros N. destruct (one_on_top _ _ N) as (rest & current & ER).
  split; [|split].
  - intros NH.
    destruct (redo_moves hs r1 _ _ ER) as [RH RR].
    destruct (undo_moves (final (redo r1 hs)) r2 _ _ RH NH) as [UH UR].
    rewrite UH, UR, RR. split; [reflexivity | symmetry; exact ER].
  - intros R. exact (reachable_redo_needs_history hs R N).
  - intros LC LJ LE R.
    pose proof (reachable_redo_needs_history hs R N) as NH.
    destruct (one_on_top _ _ NH) as (h & top & EH).
    exact (redo_then_undo_consistent hs r1 r2 h rest top current
             (reachable_consistent hs R) EH ER).
Qed.

Lemma undos_then_redos_stacks (k : nat) (r1 r2 : Reactions) :
  forall hs : HistoryStack,
    k < length (_history hs) ->
    _history (run_ops (repeat (OpUndo r1) k ++ repeat (OpRedo r2) k) hs)
      = _history hs /\
    _redoStack (run_ops (repeat (OpUndo r1) k ++ repeat (OpRedo r2) k) hs)
      = _redoStack hs.
Proof.
  induction k as [|k IH]; intros hs Len.
  - simpl. auto.
  - assert (Len2 : 2 <= length (_history hs)) by lia.
    destruct (two_on_top _ _ Len2) as (rest & previous & current & E).
    assert (E' : _history hs = (rest ++ [previous]) ++ [current])
      by (rewrite E, <- app_assoc; reflexivity).
    assert (N : rest ++ [previous] <> []).
    { intros Q. apply app_eq_nil in Q. destruct Q; discriminate. }
    destruct (undo_moves hs r1 _ _ E' N) as [UH UR].
    assert (Len1 : k < length (_history (final (undo r1 hs)))).
    { rewrite UH. rewrite E', length_app in Len. simpl in Len. lia. }
    destruct (IH _ Len1) as (JH & JR).
    replace (repeat (OpUndo r1) (S k) ++ repeat (OpRedo r2) (S k))
      with ([OpUndo r1] ++ (repeat (OpUndo r1) k ++ repeat (OpRedo r2) k)
                        ++ [OpRedo r2]).
    2:{ simpl. f_equal. rewrite <- app_assoc. f_equal.
        symmetry. apply (repeat_cons k (OpRedo r2)). }
    rewrite (run_ops_app [OpUndo r1]).
    rewrite (run_ops_app (repeat (OpUndo r1) k ++ repeat (OpRedo r2) k) [OpRedo r2]).
    change (run_ops [OpUndo r1] hs) with (final (undo r1 hs)).
    set (mid := run_ops (repeat (OpUndo r1) k ++ repeat (OpRedo r2) k)
                        (final (undo r1 hs))) in *.
    change (run_ops [OpRedo r2] mid) with (final (redo r2 mid)).
    rewrite UR in JR. rewrite UH in JH.
    destruct (redo_moves mid r2 _ _ JR) as [RH RR].
    rewrite RH, RR, JH. split; [symmetry; exact E' | reflexivity].
Qed.

(** X13: in every state, [k] undos followed by [k] redos, for any [k] below
    the number of snapshots in [_history], bring [_history] and [_redoStack]
    back to what they were, whether the calls return or throw; in a session
    whose collaborators keep their contracts and restore exactly, the
    serialized text of the material is then again the one of the start. *)
Theorem undos_then_redos_round_trip
        (hs : HistoryStack) (k : nat) (r1 r2 : Reactions) :
  k < length (_history hs) ->
  (_history (run_ops (repeat (OpUndo r1) k ++ repeat (OpRedo r2) k) hs)
     = _history hs /\
   _redoStack (run_ops (repeat (OpUndo r1) k ++ repeat (OpRedo r2) k) hs)
     = _redoStack hs) /\
  (CompressorLaw C -> JsonLaw C -> ExactRestore C ->
   reachable hs ->
   documentText (run_ops (repeat (OpUndo r1) k ++ repeat (OpRedo r2) k) hs)
     = documentText hs).
Proof.
  intros Len. split.
  - apply undos_then_redos_stacks, Len.
  - intros LC LJ LE R.
    apply (undos_then_redos_consistent k r1 r2 hs (reachable_consistent hs R) Len).
Qed.

(** X15: the capture of an edit made after an undo leaves the undone
    snapshot on [_redoStack], and the redo that follows puts it back on top
    of the snapshot of the edit: in a state with two readable snapshots at
    least and [_maxHistoryLength] at most, an undo, an edit whose text is not
    the one the undo restored from, and a redo leave [_history] with the
    edit below its former last snapshot and [_redoStack] as it was; when the
    redo returns, the material is restored from that former last snapshot,
    over the edit; and in a session whose collaborators keep their contracts
    and restore exactly, the serialized text is again the one before the
    undo. *)
Theorem redo_after_edit_restores_undone_state
        (hs : HistoryStack) (r1 r2 : Reactions)
        (edit : NodeMaterial -> NodeMaterial) (c : ChangeChannel)
        (rest : list Uint8Array) (previous current : Uint8Array)
        (tp : string) (sp : Json) :
  _history hs = rest ++ [previous; current] ->
  length (_history hs) <= _maxHistoryLength ->
  strFromU8_decompressSync previous = Some tp ->
  JSON_parse tp = Some sp ->
  tp <> dataString (set_nodeMaterial edit (final (undo r1 hs))) ->
  (_history (run_ops [OpUndo r1; OpChange edit c; OpRedo r2] hs) =
     rest ++ [previous;
              _compress (dataString (set_nodeMaterial edit (final (undo r1 hs))));
              current] /\
   _redoStack (run_ops [OpUndo r1; OpChange edit c; OpRedo r2] hs) = _redoStack hs) /\
  (forall tc sc,
      strFromU8_decompressSync current = Some tc ->
      JSON_parse tc = Some sc ->
      _nodeMaterial (run_ops [OpUndo r1; OpChange edit c; OpRedo r2] hs) =
        parseSerializedObject
          (UpdateLocations (edit (parseSerializedObject (_nodeMaterial hs) sp))) sc /\
      _locked (run_ops [OpUndo r1; OpChange edit c; OpRedo r2] hs) = false) /\
  (CompressorLaw C -> JsonLaw C -> ExactRestore C ->
   reachable hs ->
   documentText (run_ops [OpUndo r1; OpChange edit c; OpRedo r2] hs)
     = documentText hs).
Proof.
  intros E LenM D P N.
  assert (U : undo r1 hs =
              Ret JsUndefined
                  (mkHistoryStack (parseSerializedObject (_nodeMaterial hs) sp)
                                  (rest ++ [previous])
                                  (_redoStack hs ++ [current]) false)).
  { rewrite (undo_equation hs r1 _ _ _ E). unfold restore_from.
    rewrite D, P. reflexivity. }
  rewrite U in N. cbn [final] in N.
  rewrite !run_ops_cons. change (run_ops [] ?x) with x.
  change (run_op (OpUndo r1) hs) with (undo r1 hs).
  rewrite U. cbn [final]. rewrite run_op_change.
  set (hs1 := mkHistoryStack (parseSerializedObject (_nodeMaterial hs) sp)
                             (rest ++ [previous])
                             (_redoStack hs ++ [current]) false) in *.
  set (hs1e := set_nodeMaterial edit hs1) in *.
  assert (S0 : _store hs1e =
               Ret JsUndefined
                   (set_history (_history hs1e ++ [_compress (dataString hs1e)])
                                (set_nodeMaterial UpdateLocations hs1e))).
  { apply store_appends.
    - reflexivity.
    - simpl. rewrite E in LenM. rewrite !length_app in *. simpl in *.
      unfold _maxHistoryLength in *. lia.
    - right. exists rest, previous, tp. auto. }
  rewrite S0. cbn [final].
  set (hs2 := set_history (_history hs1e ++ [_compress (dataString hs1e)])
                          (set_nodeMaterial UpdateLocations hs1e)).
  assert (R2 : _redoStack hs2 = _redoStack hs ++ [current]) by reflexivity.
  change (run_op (OpRedo r2) hs2) with (redo r2 hs2).
  assert (M : forall tc sc,
             strFromU8_decompressSync current = Some tc ->
             JSON_parse tc = Some sc ->
             _nodeMaterial (final (redo r2 hs2)) =
               parseSerializedObject
                 (UpdateLocations (edit (parseSerializedObject (_nodeMaterial hs) sp))) sc /\
             _locked (final (redo r2 hs2)) = false).
  { intros tc sc Dc Pc. rewrite (redo_equation hs2 r2 _ _ R2).
    unfold restore_from. rewrite Dc, Pc. simpl. auto. }
  split; [|split].
  - destruct (redo_moves hs2 r2 _ _ R2) as [RH RR].
    rewrite RH, RR. split; [|reflexivity].
    simpl. rewrite <- !app_assoc. reflexivity.
  - exact M.
  - intros LC LJ LE R.
    destruct (reachable_consistent hs R) as (_ & HH & _ & I1).
    assert (E' : _history hs = (rest ++ [previous]) ++ [current])
      by (rewrite E, <- app_assoc; reflexivity).
    assert (CC : captured current).
    { rewrite E' in HH. apply Forall_app in HH. destruct HH as [_ HC].
      inversion HC; assumption. }
    destruct (captured_decompress _ CC) as (nmc & _ & Dc).
    destruct (M _ _ Dc (parse_stringify nmc)) as [Q _].
    unfold documentText at 1. rewrite Q, serialize_parseSerializedObject.
    specialize (I1 _ _ E'). rewrite Dc in I1. inversion I1. reflexivity.
Qed.

End RoundTrips.

(** ** The small instance *)

#[local] Existing Instance Plain.collaborators.

Lemma plain_compressor : CompressorLaw Plain.collaborators.
Proof.
  constructor; simpl. intros s. unfold Plain.inflate, Plain.deflate.
  rewrite string_of_list_byte_of_string. reflexivity.
Qed.

Lemma plain_json : JsonLaw Plain.collaborators.
Proof. constructor; simpl. intros nm. reflexivity. Qed.

Lemma plain_exact : ExactRestore Plain.collaborators.
Proof. constructor; simpl. intros nm nm'. reflexivity. Qed.

Lemma reachable_run_ops {C : Collaborators} (ops : list Op) (hs : HistoryStack) :
  reachable hs -> reachable (run_ops ops hs).
Proof.
  revert hs. induction ops as [|op ops IH]; intros hs R; simpl.
  - exact R.
  - apply IH. apply reachable_step, R.
Qed.

(** The scenario of the testable properties: A, B, C captured, two undos,
    one redo. *)
Example scenario_ABC :
  _history Plain.session_ABC =
    map (fun s => Plain.deflate (Plain.stringify s)) ["A"; "B"; "C"]%string /\
  (let hs1 := final (undo quiet Plain.session_ABC) in
   let hs2 := final (undo quiet hs1) in
   let hs3 := final (redo quiet hs2) in
   (_nodeMaterial hs1 = "B"%string /\
    _history hs1 = map (fun s => Plain.deflate (Plain.stringify s)) ["A"; "B"]%string /\
    _redoStack hs1 = map (fun s => Plain.deflate (Plain.stringify s)) ["C"]%string) /\
   (_nodeMaterial hs2 = "A"%string /\
    _history hs2 = map (fun s => Plain.deflate (Plain.stringify s)) ["A"]%string /\
    _redoStack hs2 = map (fun s => Plain.deflate (Plain.stringify s)) ["C"; "B"]%string) /\
   (_nodeMaterial hs3 = "B"%string /\
    _history hs3 = map (fun s => Plain.deflate (Plain.stringify s)) ["A"; "B"]%string /\
    _redoStack hs3 = map (fun s => Plain.deflate (Plain.stringify s)) ["C"]%string)).
Proof. vm_compute. repeat split. Qed.

(** One capture more than [_maxHistoryLength]: the array stays at the bound
    and the first snapshot is gone. *)
Example one_capture_too_many :
  let first := final (run_op Plain.append_a (new_HistoryStack (C := Plain.collaborators) ""%string)) in
  let hs := run_ops (repeat Plain.append_a (S _maxHistoryLength))
                    (new_HistoryStack (C := Plain.collaborators) ""%string) in
  _history first = [Plain.deflate (Plain.stringify "a")] /\
  length (_history hs) = _maxHistoryLength /\
  existsb (fun d => if list_eq_dec Byte.byte_eq_dec d (Plain.deflate (Plain.stringify "a"))
                    then true else false) (_history hs) = false /\
  hd_error (_history hs) = Some (Plain.deflate (Plain.stringify "aa")).
Proof. vm_compute. repeat split. Qed.

(** C4, where the code departs from it: [redo] appends to [_history] without
    the check [_store] makes.  After [_maxHistoryLength] distinct captures,
    one undo and one further capture, [_history] is at the bound with one
    snapshot to redo; the redo returns and leaves [_maxHistoryLength + 1]
    snapshots in [_history]. *)
Theorem redo_exceeds_maxHistoryLength :
  reachable Plain.session_full /\
  length (_history Plain.session_full) = _maxHistoryLength /\
  length (_redoStack Plain.session_full) = 1 /\
  (exists hs', redo quiet Plain.session_full = Ret JsUndefined hs' /\
               length (_history hs') = S _maxHistoryLength) /\
  ~ length (_history (final (redo quiet Plain.session_full))) <= _maxHistoryLength.
Proof.
  split; [apply reachable_run_ops, reachable_new|].
  split; [vm_compute; reflexivity|].
  split; [vm_compute; reflexivity|].
  split.
  - eexists. split; vm_compute; reflexivity.
  - vm_compute. intros H. repeat (apply le_S_n in H). inversion H.
Qed.

(** ** Concrete states *)

Lemma undo_moves_current_witness :
  2 <= length (_history Plain.session_ABC) /\
  exists rest previous current,
    _history Plain.session_ABC = rest ++ [previous; current] /\
    _history (final (undo quiet Plain.session_ABC)) = rest ++ [previous] /\
    _redoStack (final (undo quiet Plain.session_ABC)) =
      _redoStack Plain.session_ABC ++ [current] /\
    undo quiet Plain.session_ABC =
      restore_from previous
        (moved Plain.session_ABC (rest ++ [previous])
               (_redoStack Plain.session_ABC ++ [current])) /\
    (forall text source,
        strFromU8_decompressSync previous = Some text ->
        JSON_parse text = Some source ->
        undo quiet Plain.session_ABC =
          Ret JsUndefined
              (mkHistoryStack
                 (parseSerializedObject (_nodeMaterial Plain.session_ABC) source)
                 (rest ++ [previous])
                 (_redoStack Plain.session_ABC ++ [current]) false)).
Proof.
  split.
  - vm_compute. lia.
  - apply (undo_moves_current_and_restores_previous Plain.session_ABC quiet).
    vm_compute. lia.
Defined.

Lemma undo_then_redo_witness :
  2 <= length (_history Plain.session_ABC) /\
  reachable Plain.session_ABC /\
  undo quiet Plain.session_ABC = Ret JsUndefined Plain.session_undone /\
  redo quiet Plain.session_undone = Ret JsUndefined Plain.session_redone /\
  _history (final (redo quiet (final (undo quiet Plain.session_ABC))))
    = _history Plain.session_ABC /\
  _redoStack (final (redo quiet (final (undo quiet Plain.session_ABC))))
    = _redoStack Plain.session_ABC /\
  (exists rest current text source,
      _history Plain.session_ABC = rest ++ [current] /\
      strFromU8_decompressSync current = Some text /\
      JSON_parse text = Some source /\
      _nodeMaterial Plain.session_redone =
        parseSerializedObject (_nodeMaterial Plain.session_undone) source /\
      _locked Plain.session_redone = false) /\
  (exists hs1 hs2,
      undo quiet Plain.session_ABC = Ret JsUndefined hs1 /\
      redo quiet hs1 = Ret JsUndefined hs2 /\
      documentText hs2 = documentText Plain.session_ABC /\
      _history hs2 = _history Plain.session_ABC /\
      _redoStack hs2 = _redoStack Plain.session_ABC /\
      _locked hs2 = _locked Plain.session_ABC).
Proof.
  assert (Len : 2 <= length (_history Plain.session_ABC))
    by (vm_compute; lia).
  assert (R : reachable Plain.session_ABC)
    by (apply reachable_run_ops, reachable_new).
  assert (U : undo quiet Plain.session_ABC = Ret JsUndefined Plain.session_undone)
    by reflexivity.
  assert (V : redo quiet Plain.session_undone = Ret JsUndefined Plain.session_redone)
    by reflexivity.
  destruct (undo_then_redo_round_trip Plain.session_ABC quiet quiet Len)
    as ((H1 & H2) & M & T).
  split; [exact Len|]. split; [exact R|]. split; [exact U|]. split; [exact V|].
  split; [exact H1|]. split; [exact H2|].
  split; [exact (M _ _ U V)|].
  exact (T plain_compressor plain_json plain_exact R).
Defined.

(** C2 as stated fails: [Fresh] keeps the contracts of the compressor and of
    [JSON], and in its session A, B, C the undo and the redo both return and
    bring the arrays back, but the material then serializes with the
    identifier the redo gave it, not with the one it had before the undo. *)
Lemma fresh_identifiers_break_the_text_round_trip :
  reachable Fresh.session_ABC /\
  2 <= length (_history Fresh.session_ABC) /\
  undo quiet Fresh.session_ABC = Ret JsUndefined Fresh.session_undone /\
  redo quiet Fresh.session_undone = Ret JsUndefined Fresh.session_redone /\
  _history Fresh.session_redone = _history Fresh.session_ABC /\
  _redoStack Fresh.session_redone = _redoStack Fresh.session_ABC /\
  documentText Fresh.session_ABC = "{1C"%string /\
  documentText Fresh.session_redone = "{3C"%string /\
  documentText Fresh.session_redone <> documentText Fresh.session_ABC /\
  CompressorLaw Fresh.collaborators /\
  JsonLaw Fresh.collaborators.
Proof.
  split; [apply reachable_run_ops, reachable_new|].
  split; [vm_compute; lia|].
  split; [reflexivity|]. split; [reflexivity|].
  split; [reflexivity|]. split; [reflexivity|].
  split; [reflexivity|]. split; [reflexivity|].
  split; [vm_compute; discriminate|].
  split; constructor; simpl.
  - intros s. unfold Plain.inflate, Plain.deflate.
    rewrite string_of_list_byte_of_string. reflexivity.
  - intros nm. reflexivity.
Qed.

Lemma store_same_text_witness :
  _history Plain.session_ABC =
    [Plain.deflate (Plain.stringify "A"); Plain.deflate (Plain.stringify "B")]
      ++ [Plain.deflate (Plain.stringify "C")] /\
  strFromU8_decompressSync (Plain.deflate (Plain.stringify "C")) =
    Some (dataString Plain.session_ABC) /\
  exists hs',
    _store Plain.session_ABC = Ret JsUndefined hs' /\
    _history hs' = _history Plain.session_ABC /\
    length (_history hs') = length (_history Plain.session_ABC) /\
    _redoStack hs' = _redoStack Plain.session_ABC /\
    _locked hs' = _locked Plain.session_ABC.
Proof.
  split; [reflexivity|]. split; [reflexivity|].
  apply (store_same_text_keeps_history Plain.session_ABC
           [Plain.deflate (Plain.stringify "A"); Plain.deflate (Plain.stringify "B")]
           (Plain.deflate (Plain.stringify "C"))); reflexivity.
Defined.

Lemma boundary_calls_witness :
  length (_history Plain.fresh) < 2 /\
  length (_redoStack Plain.fresh) < 1 /\
  undo quiet Plain.fresh = Ret JsUndefined Plain.fresh /\
  redo quiet Plain.fresh = Ret JsUndefined Plain.fresh.
Proof.
  destruct (boundary_calls_change_nothing Plain.fresh quiet) as (U & R & _).
  assert (L1 : length (_history Plain.fresh) < 2) by (simpl; lia).
  assert (L2 : length (_redoStack Plain.fresh) < 1) by (simpl; lia).
  split; [exact L1|]. split; [exact L2|].
  split; [exact (U L1) | exact (R L2)].
Defined.

(** C5 as stated fails: at a fresh stack [undo] and [redo] return, with
    nothing changed, but what they return is [undefined], not [false]. *)
Lemma boundary_calls_return_undefined :
  length (_history Plain.fresh) < 2 /\
  _redoStack Plain.fresh = [] /\
  undo quiet Plain.fresh = Ret JsUndefined Plain.fresh /\
  redo quiet Plain.fresh = Ret JsUndefined Plain.fresh /\
  (forall hs', undo quiet Plain.fresh <> Ret (JsBoolean false) hs') /\
  (forall hs', redo quiet Plain.fresh <> Ret (JsBoolean false) hs').
Proof.
  simpl. split; [lia|]. split; [reflexivity|].
  split; [reflexivity|]. split; [reflexivity|].
  split; intros hs' H; vm_compute in H; discriminate.
Qed.

Lemma capture_during_transition_witness :
  _locked Plain.session_locked = true /\
  observer onNodeMovedObservable Plain.session_locked =
    Ret JsUndefined Plain.session_locked /\
  2 <= length (_history Plain.session_ABC) /\
  _history Plain.session_ABC =
    [Plain.deflate (Plain.stringify "A"); Plain.deflate (Plain.stringify "B")]
      ++ [Plain.deflate (Plain.stringify "C")] /\
  _history (final (undo (mkReactions [onUpdateRequiredObservable]
                                     [onRebuildRequiredObservable; onNodeMovedObservable]
                                     [onNewNodeCreatedObservable])
                        Plain.session_ABC)) =
    [Plain.deflate (Plain.stringify "A"); Plain.deflate (Plain.stringify "B")].
Proof.
  destruct (capture_during_transition_is_ignored (C := Plain.collaborators))
    as (G & _ & _ & U & _).
  assert (HL : _locked Plain.session_locked = true) by reflexivity.
  assert (Len : 2 <= length (_history Plain.session_ABC)) by (vm_compute; lia).
  assert (E : _history Plain.session_ABC =
              [Plain.deflate (Plain.stringify "A"); Plain.deflate (Plain.stringify "B")]
                ++ [Plain.deflate (Plain.stringify "C")]) by reflexivity.
  split; [exact HL|]. split; [exact (G _ onNodeMovedObservable HL)|].
  split; [exact Len|]. split; [exact E|].
  exact (U Plain.session_ABC _ _ _ Len E).
Defined.

(** C7 as stated fails: the last but one snapshot of [Plain.corrupted] is no
    compressed stream, the undo throws on decompressing it, and the arrays
    are not what they were: the last snapshot has moved to [_redoStack].
    Likewise for the redo. *)
Lemma failed_decompression_leaves_moved_snapshot :
  undo quiet Plain.corrupted =
    Throw (DecompressError Plain.garbage) Plain.after_failed_undo /\
  _history Plain.after_failed_undo = [Plain.garbage] /\
  _history Plain.corrupted =
    [Plain.garbage; Plain.deflate (Plain.stringify "C")] /\
  _history (final (undo quiet Plain.corrupted)) <> _history Plain.corrupted /\
  _redoStack (final (undo quiet Plain.corrupted)) <> _redoStack Plain.corrupted /\
  redo quiet Plain.corrupted =
    Throw (DecompressError Plain.garbage) Plain.after_failed_redo /\
  _history (final (redo quiet Plain.corrupted)) <> _history Plain.corrupted /\
  _redoStack (final (redo quiet Plain.corrupted)) <> _redoStack Plain.corrupted.
Proof.
  repeat split; try reflexivity; vm_compute; discriminate.
Qed.

Lemma failed_transition_witness :
  undo quiet Plain.corrupted =
    Throw (DecompressError Plain.garbage) Plain.after_failed_undo /\
  redo quiet Plain.corrupted =
    Throw (DecompressError Plain.garbage) Plain.after_failed_redo /\
  _nodeMaterial Plain.after_failed_undo = _nodeMaterial Plain.corrupted /\
  _nodeMaterial Plain.after_failed_redo = _nodeMaterial Plain.corrupted.
Proof.
  assert (U : undo quiet Plain.corrupted =
              Throw (DecompressError Plain.garbage) Plain.after_failed_undo)
    by reflexivity.
  assert (R : redo quiet Plain.corrupted =
              Throw (DecompressError Plain.garbage) Plain.after_failed_redo)
    by reflexivity.
  split; [exact U|]. split; [exact R|]. split.
  - exact (proj1 (proj1 (failed_transition_keeps_material_and_move
                           Plain.corrupted Plain.after_failed_undo quiet _) U)).
  - exact (proj1 (proj2 (failed_transition_keeps_material_and_move
                           Plain.corrupted Plain.after_failed_redo quiet _) R)).
Defined.

Lemma thrown_transition_witness :
  _history Plain.corrupted = [] ++ [Plain.garbage; Plain.deflate (Plain.stringify "C")] /\
  strFromU8_decompressSync Plain.garbage = None /\
  (exists e hs', undo quiet Plain.corrupted = Throw e hs') /\
  _locked (final (undo quiet Plain.corrupted)) = true /\
  observer onUpdateRequiredObservable (final (undo quiet Plain.corrupted)) =
    Ret JsUndefined (final (undo quiet Plain.corrupted)).
Proof.
  destruct (thrown_transition_leaves_guard_set Plain.corrupted quiet)
    as (U & _ & G).
  assert (E : _history Plain.corrupted =
              [] ++ [Plain.garbage; Plain.deflate (Plain.stringify "C")])
    by reflexivity.
  assert (D : strFromU8_decompressSync Plain.garbage = None) by reflexivity.
  split; [exact E|]. split; [exact D|].
  split; [exact (U _ _ _ E (or_introl D))|].
  assert (T : undo quiet Plain.corrupted =
              Throw (DecompressError Plain.garbage)
                    (final (undo quiet Plain.corrupted))) by reflexivity.
  destruct (G _ _ (or_introl T)) as (_ & K & O & _).
  split; [exact K | exact (O onUpdateRequiredObservable)].
Defined.

Lemma capture_leaves_redoStack_witness :
  length (_redoStack Plain.session_ABC)
    < length (_redoStack (final (run_op (OpUndo quiet) Plain.session_ABC))) /\
  OpRedo (C := Plain.collaborators) quiet <> OpClearUndoStack /\
  OpRedo (C := Plain.collaborators) quiet <> OpDispose /\
  length (_redoStack (final (run_op (OpRedo quiet) Plain.session_undone)))
    < length (_redoStack Plain.session_undone) /\
  (exists r, OpUndo (C := Plain.collaborators) quiet = OpUndo r) /\
  (exists r, OpRedo (C := Plain.collaborators) quiet = OpRedo r) /\
  _redoStack (final (_store Plain.session_undone)) = _redoStack Plain.session_undone.
Proof.
  destruct (capture_leaves_redoStack_alone (C := Plain.collaborators))
    as (F & _ & G & S & _).
  assert (L1 : length (_redoStack Plain.session_ABC)
               < length (_redoStack (final (run_op (OpUndo quiet) Plain.session_ABC))))
    by (vm_compute; lia).
  assert (N1 : OpRedo (C := Plain.collaborators) quiet <> OpClearUndoStack)
    by discriminate.
  assert (N2 : OpRedo (C := Plain.collaborators) quiet <> OpDispose)
    by discriminate.
  assert (L2 : length (_redoStack (final (run_op (OpRedo quiet) Plain.session_undone)))
               < length (_redoStack Plain.session_undone))
    by (vm_compute; lia).
  split; [exact L1|]. split; [exact N1|]. split; [exact N2|]. split; [exact L2|].
  split; [exact (G _ _ L1)|]. split; [exact (S _ _ N1 N2 L2)|].
  exact (F Plain.session_undone).
Defined.

(** C9 as stated fails: with the guard set, [reset] empties both arrays and
    its capture is ignored, so [_history] holds no snapshot at all. *)
Lemma reset_under_guard_captures_nothing :
  _locked Plain.session_locked = true /\
  reset Plain.session_locked =
    Ret JsUndefined (mkHistoryStack (C := Plain.collaborators) "B"%string [] [] true) /\
  length (_history (final (reset Plain.session_locked))) <> 1.
Proof.
  split; [reflexivity|]. split; [reflexivity|].
  vm_compute. discriminate.
Qed.

Lemma reset_witness :
  _locked Plain.session_undone = false /\
  exists snapshot hs',
    reset Plain.session_undone = Ret JsUndefined hs' /\
    _history hs' = [snapshot] /\
    _redoStack hs' = [] /\
    strFromU8_decompressSync snapshot = Some (documentText hs').
Proof.
  assert (HL : _locked Plain.session_undone = false) by reflexivity.
  split; [exact HL|].
  exact (reset_leaves_one_baseline (LC := plain_compressor) Plain.session_undone HL).
Defined.

(** ** The further properties at concrete states *)

Lemma guard_released_witness :
  _locked Plain.session_locked = true /\
  _locked (final (run_op (OpUndo quiet) Plain.session_locked)) = false /\
  exists r hs',
    (OpUndo (C := Plain.collaborators) quiet = OpUndo r \/
     OpUndo (C := Plain.collaborators) quiet = OpRedo r) /\
    run_op (OpUndo quiet) Plain.session_locked = Ret JsUndefined hs'.
Proof.
  assert (HL : _locked Plain.session_locked = true) by reflexivity.
  assert (HU : _locked (final (run_op (OpUndo quiet) Plain.session_locked)) = false)
    by reflexivity.
  split; [exact HL|]. split; [exact HU|].
  exact (guard_released_only_by_returning_transition
           Plain.session_locked (OpUndo quiet) HL HU).
Defined.

Lemma reset_after_thrown_witness :
  undo quiet Plain.corrupted =
    Throw (DecompressError Plain.garbage) Plain.after_failed_undo /\
  _locked (run_ops (OpClearUndoStack :: [Plain.type "Z"; OpUndo quiet; OpRedo quiet])
                   Plain.after_failed_undo) = true /\
  _history (run_ops (OpClearUndoStack :: [Plain.type "Z"; OpUndo quiet; OpRedo quiet])
                    Plain.after_failed_undo) = [] /\
  _redoStack (run_ops (OpClearUndoStack :: [Plain.type "Z"; OpUndo quiet; OpRedo quiet])
                      Plain.after_failed_undo) = [].
Proof.
  assert (U : undo quiet Plain.corrupted =
              Throw (DecompressError Plain.garbage) Plain.after_failed_undo)
    by reflexivity.
  split; [exact U|].
  exact (reset_after_thrown_transition_is_inert
           Plain.corrupted Plain.after_failed_undo quiet _
           [Plain.type "Z"; OpUndo quiet; OpRedo quiet] (or_introl U)).
Defined.

Lemma store_throws_witness :
  _locked Plain.unreadable = false /\
  _history Plain.unreadable = [] ++ [Plain.garbage] /\
  strFromU8_decompressSync Plain.garbage = None /\
  _store Plain.unreadable =
    Throw (DecompressError Plain.garbage)
          (set_nodeMaterial UpdateLocations Plain.unreadable).
Proof.
  split; [reflexivity|]. split; [reflexivity|]. split; [reflexivity|].
  apply (store_throws_on_unreadable_top Plain.unreadable [] Plain.garbage);
    reflexivity.
Defined.

Lemma store_appends_witness :
  _locked Plain.session_edited = false /\
  length (_history Plain.session_edited) < _maxHistoryLength /\
  _store Plain.session_edited =
    Ret JsUndefined
        (set_history
           (_history Plain.session_edited
              ++ [_compress (dataString Plain.session_edited)])
           (set_nodeMaterial UpdateLocations Plain.session_edited)).
Proof.
  assert (HL : _locked Plain.session_edited = false) by reflexivity.
  assert (Len : length (_history Plain.session_edited) < _maxHistoryLength)
    by (vm_compute; lia).
  split; [exact HL|]. split; [exact Len|].
  apply (store_appends_new_text Plain.session_edited HL Len).
  right.
  exists [Plain.deflate (Plain.stringify "A"); Plain.deflate (Plain.stringify "B")],
         (Plain.deflate (Plain.stringify "C")), (Plain.stringify "C").
  split; [reflexivity|]. split; [reflexivity|].
  vm_compute. discriminate.
Defined.

Lemma store_at_bound_witness :
  _locked Plain.session_at_bound = false /\
  length (_history Plain.session_at_bound) = _maxHistoryLength /\
  hd_error (_history Plain.session_at_bound) = Some (Plain.deflate (Plain.stringify "a")) /\
  _history (final (_store Plain.session_at_bound)) =
    tl (_history Plain.session_at_bound)
      ++ [_compress (dataString Plain.session_at_bound)] /\
  length (_history (final (_store Plain.session_at_bound))) = _maxHistoryLength.
Proof.
  assert (HL : _locked Plain.session_at_bound = false) by reflexivity.
  assert (Len : length (_history Plain.session_at_bound) = _maxHistoryLength)
    by (vm_compute; reflexivity).
  split; [exact HL|]. split; [exact Len|]. split; [vm_compute; reflexivity|].
  assert (HH : _history Plain.session_at_bound =
               Plain.deflate (Plain.stringify "a")
                 :: removelast (tl (_history Plain.session_at_bound))
                 ++ [last (_history Plain.session_at_bound) []])
    by (vm_compute; reflexivity).
  assert (HT : tl (_history Plain.session_at_bound) =
               removelast (tl (_history Plain.session_at_bound))
                 ++ [last (_history Plain.session_at_bound) []])
    by (vm_compute; reflexivity).
  rewrite HT at 1.
  apply (store_at_bound_drops_oldest Plain.session_at_bound
           (Plain.deflate (Plain.stringify "a"))
           (last (_history Plain.session_at_bound) [])
           (removelast (tl (_history Plain.session_at_bound)))
           (Plain.stringify (fold_right (fun _ s => String "a"%char s) ""%string
                                        (repeat tt _maxHistoryLength)))
           HL HH Len).
  - vm_compute. reflexivity.
  - vm_compute. discriminate.
Defined.

Lemma history_bound_witness :
  length (_history Plain.session_ABC) <= _maxHistoryLength /\
  length (_history (final (run_op (Plain.type "D") Plain.session_ABC)))
    <= _maxHistoryLength /\
  _redoStack Plain.session_full <> [] /\
  length (_history (final (run_op (OpRedo quiet) Plain.session_full)))
    = S (length (_history Plain.session_full)).
Proof.
  assert (Len : length (_history Plain.session_ABC) <= _maxHistoryLength)
    by (vm_compute; lia).
  assert (N : _redoStack Plain.session_full <> []) by (vm_compute; discriminate).
  split; [exact Len|]. split; [|split; [exact N|]].
  - apply (proj1 (history_bound_kept_except_by_redo
                    Plain.session_ABC (Plain.type "D")) Len).
    intros r. discriminate.
  - exact (proj2 (history_bound_kept_except_by_redo
                    Plain.session_full (OpRedo quiet)) quiet eq_refl N).
Defined.

Lemma session_invariant_witness :
  reachable Plain.session_ABC /\
  _locked Plain.session_ABC = false /\
  (forall rest top, _history Plain.session_ABC = rest ++ [top] ->
     strFromU8_decompressSync top = Some (documentText Plain.session_ABC)) /\
  (forall data, In data (_history Plain.session_ABC ++ _redoStack Plain.session_ABC) ->
     exists text source,
       strFromU8_decompressSync data = Some text /\ JSON_parse text = Some source).
Proof.
  assert (R : reachable Plain.session_ABC)
    by (apply reachable_run_ops, reachable_new).
  split; [exact R|].
  exact (session_last_snapshot_is_current (LC := plain_compressor) (LJ := plain_json)
           (LE := plain_exact) Plain.session_ABC R).
Defined.

Lemma redo_then_undo_witness :
  _redoStack Plain.session_undone <> [] /\
  _history Plain.session_undone <> [] /\
  reachable Plain.session_undone /\
  _history (final (undo quiet (final (redo quiet Plain.session_undone))))
    = _history Plain.session_undone /\
  _redoStack (final (undo quiet (final (redo quiet Plain.session_undone))))
    = _redoStack Plain.session_undone /\
  exists hs1 hs2,
    redo quiet Plain.session_undone = Ret JsUndefined hs1 /\
    undo quiet hs1 = Ret JsUndefined hs2 /\
    documentText hs2 = documentText Plain.session_undone /\
    _history hs2 = _history Plain.session_undone /\
    _redoStack hs2 = _redoStack Plain.session_undone /\
    _locked hs2 = _locked Plain.session_undone.
Proof.
  assert (R : reachable Plain.session_undone).
  { apply (@reachable_step _ Plain.session_ABC (OpUndo quiet)).
    apply reachable_run_ops, reachable_new. }
  assert (N : _redoStack Plain.session_undone <> [])
    by (vm_compute; discriminate).
  assert (NH : _history Plain.session_undone <> [])
    by (vm_compute; discriminate).
  destruct (redo_then_undo_round_trip Plain.session_undone quiet quiet N)
    as (S & _ & T).
  split; [exact N|]. split; [exact NH|]. split; [exact R|].
  split; [exact (proj1 (S NH))|]. split; [exact (proj2 (S NH))|].
  exact (T plain_compressor plain_json plain_exact R).
Defined.

Lemma undos_then_redos_witness :
  2 < length (_history Plain.session_ABC) /\
  reachable Plain.session_ABC /\
  _history (run_ops (repeat (OpUndo quiet) 2 ++ repeat (OpRedo quiet) 2)
                    Plain.session_ABC) = _history Plain.session_ABC /\
  _redoStack (run_ops (repeat (OpUndo quiet) 2 ++ repeat (OpRedo quiet) 2)
                      Plain.session_ABC) = _redoStack Plain.session_ABC /\
  documentText (run_ops (repeat (OpUndo quiet) 2 ++ repeat (OpRedo quiet) 2)
                        Plain.session_ABC) = documentText Plain.session_ABC.
Proof.
  assert (R : reachable Plain.session_ABC)
    by (apply reachable_run_ops, reachable_new).
  assert (Len : 2 < length (_history Plain.session_ABC)) by (vm_compute; lia).
  destruct (undos_then_redos_round_trip Plain.session_ABC 2 quiet quiet Len)
    as ((H1 & H2) & T).
  split; [exact Len|]. split; [exact R|]. split; [exact H1|]. split; [exact H2|].
  exact (T plain_compressor plain_json plain_exact R).
Defined.

Lemma distinct_captures_witness :
  length [((fun _ : string => "A"%string), Plain.c);
          ((fun _ : string => "B"%string), Plain.c)] <= _maxHistoryLength /\
  adjacent_distinct
    (captured_texts [((fun _ : string => "A"%string), Plain.c);
                     ((fun _ : string => "B"%string), Plain.c)] ""%string) /\
  _history (run_ops [Plain.type "A"; Plain.type "B"]
                    (new_HistoryStack (C := Plain.collaborators) ""%string)) =
    [Plain.deflate (Plain.stringify "A"); Plain.deflate (Plain.stringify "B")].
Proof.
  assert (Len : length [((fun _ : string => "A"%string), Plain.c);
                        ((fun _ : string => "B"%string), Plain.c)]
                <= _maxHistoryLength) by (vm_compute; lia).
  assert (AD : adjacent_distinct
                 (captured_texts [((fun _ : string => "A"%string), Plain.c);
                                  ((fun _ : string => "B"%string), Plain.c)]
                                 ""%string)).
  { simpl. split; [discriminate | exact I]. }
  split; [exact Len|]. split; [exact AD|].
  destruct (distinct_captures_fill_history (LC := plain_compressor)
              [((fun _ : string => "A"%string), Plain.c);
               ((fun _ : string => "B"%string), Plain.c)] ""%string Len AD)
    as (E & _ & _).
  exact (f_equal _history E).
Defined.

Lemma redo_after_edit_witness :
  _history Plain.session_ABC =
    [Plain.deflate (Plain.stringify "A")]
      ++ [Plain.deflate (Plain.stringify "B"); Plain.deflate (Plain.stringify "C")] /\
  length (_history Plain.session_ABC) <= _maxHistoryLength /\
  strFromU8_decompressSync (Plain.deflate (Plain.stringify "B"))
    = Some (Plain.stringify "B") /\
  JSON_parse (Plain.stringify "B") = Some "B"%string /\
  reachable Plain.session_ABC /\
  _history (run_ops [OpUndo quiet; Plain.type "Z"; OpRedo quiet] Plain.session_ABC) =
    [Plain.deflate (Plain.stringify "A")]
      ++ [Plain.deflate (Plain.stringify "B");
          _compress (dataString
                       (set_nodeMaterial (fun _ => "Z"%string)
                                         (final (undo quiet Plain.session_ABC))));
          Plain.deflate (Plain.stringify "C")] /\
  _redoStack (run_ops [OpUndo quiet; Plain.type "Z"; OpRedo quiet] Plain.session_ABC)
    = _redoStack Plain.session_ABC /\
  _nodeMaterial (run_ops [OpUndo quiet; Plain.type "Z"; OpRedo quiet] Plain.session_ABC)
    = "C"%string /\
  documentText (run_ops [OpUndo quiet; Plain.type "Z"; OpRedo quiet] Plain.session_ABC)
    = documentText Plain.session_ABC.
Proof.
  assert (E : _history Plain.session_ABC =
              [Plain.deflate (Plain.stringify "A")]
                ++ [Plain.deflate (Plain.stringify "B");
                    Plain.deflate (Plain.stringify "C")]) by reflexivity.
  assert (LenM : length (_history Plain.session_ABC) <= _maxHistoryLength)
    by (vm_compute; lia).
  assert (D : strFromU8_decompressSync (Plain.deflate (Plain.stringify "B"))
              = Some (Plain.stringify "B")) by reflexivity.
  assert (P : JSON_parse (Plain.stringify "B") = Some "B"%string) by reflexivity.
  assert (R : reachable Plain.session_ABC)
    by (apply reachable_run_ops, reachable_new).
  assert (N : Plain.stringify "B" <>
              dataString (set_nodeMaterial (fun _ => "Z"%string)
                                           (final (undo quiet Plain.session_ABC))))
    by (vm_compute; discriminate).
  destruct (redo_after_edit_restores_undone_state
              Plain.session_ABC quiet quiet (fun _ => "Z"%string) Plain.c
              _ _ _ _ _ E LenM D P N) as ((H1 & H2) & M & T).
  split; [exact E|]. split; [exact LenM|]. split; [exact D|]. split; [exact P|].
  split; [exact R|]. split; [exact H1|]. split; [exact H2|].
  split; [exact (proj1 (M (Plain.stringify "C") "C"%string eq_refl eq_refl))|].
  exact (T plain_compressor plain_json plain_exact R).
Defined.

(** The scenario of an edit between an undo and a redo, evaluated. *)
Example edit_between_undo_and_redo :
  _history (run_ops [OpUndo quiet; Plain.type "Z"; OpRedo quiet] Plain.session_ABC) =
    map (fun s => Plain.deflate (Plain.stringify s)) ["A"; "B"; "Z"; "C"]%string /\
  _nodeMaterial (run_ops [OpUndo quiet; Plain.type "Z"; OpRedo quiet] Plain.session_ABC)
    = "C"%string.
Proof. vm_compute. split; reflexivity. Qed.
